(** * pmr: a shallow embedding of the publication scanner (cli.go)

    The repository holds two revisions of the same command line program.
    [src/unnamed/part_000] is the current one (skip-errors flag, accepted
    statuses 200/404/403, bufio.Scanner based head reader); [src/cli.go] is
    the earlier one.  The top level of this file embeds the current
    revision; [Module Legacy] embeds the places where the earlier revision
    differs.

    Go strings are byte sequences and are modelled by [string]; Go [int] is
    [Z]; [error] values are an inductive type and a [nil] error is the [Ok]
    branch of [Result]. *)

From Stdlib Require Import String Ascii List ZArith Lia Bool.
Import ListNotations.

Local Open Scope string_scope.
Local Open Scope list_scope.
Local Open Scope Z_scope.

Notation "s1 +++ s2" := (String.append s1 s2)
  (at level 60, right associativity) : string_scope.

(** ** Constants of cli.go *)

Definition ExitCodeOK : Z := 0.
(** [ExitCodeError int = 1 + iota], on the second line of its block. *)
Definition ExitCodeError : Z := 1 + 1.

Definition initScanTokenSize : Z := 1024 * 4.
Definition MaxScanTokenSize : Z := 1024 * 64.

Definition StatusOK : Z := 200.
Definition StatusForbidden : Z := 403.
Definition StatusNotFound : Z := 404.

(** ** Errors *)

Inductive error : Type :=
| UrlError (input : string)        (* *url.Error, from url.Parse or http.NewRequest *)
| TransportError (url : string)    (* client.Do: DNS, connect, TLS, timeout *)
| BodyError (url : string)         (* ioutil.ReadAll on the response body *)
| PathError (path : string)        (* *os.PathError, from os.Open *)
| ReadError (path : string)        (* a failing Read on an open file *)
| ErrTooLong.                      (* bufio.ErrTooLong *)

Inductive Result (A : Type) : Type :=
| Ok (a : A)
| Err (e : error).
Arguments Ok {A} a.
Arguments Err {A} e.

Definition is_err {A} (r : Result A) : bool :=
  match r with Ok _ => false | Err _ => true end.

(** ** The part of package strings the program uses *)

Definition NL : ascii := "010"%char.
Definition CR : ascii := "013"%char.
Definition nl : string := String NL "".

Definition len (s : string) : Z := Z.of_nat (String.length s).

(** [strings.Index(s, substr)]: the index of the first instance of [substr]
    in [s], or -1 when there is none. *)
Fixpoint index_from (i : Z) (s substr : string) : Z :=
  if String.prefix substr s then i
  else match s with
       | EmptyString => -1
       | String _ s' => index_from (i + 1) s' substr
       end.

Definition Index (s substr : string) : Z := index_from 0 s substr.

(** [bytes.IndexByte] on the unread part of a buffer. *)
Fixpoint index_byte_from (i : Z) (s : string) (c : ascii) : Z :=
  match s with
  | EmptyString => -1
  | String a s' => if Ascii.eqb a c then i else index_byte_from (i + 1) s' c
  end.

Definition IndexByte (s : string) (c : ascii) : Z := index_byte_from 0 s c.

(** [strings.Split(s, sep)] for a one byte separator, as [Run] calls it:
    the pieces between separators, [[s]] when [s] holds none. *)
Fixpoint Split (s : string) (sep : ascii) : list string :=
  match s with
  | EmptyString => [EmptyString]
  | String c s' =>
      if Ascii.eqb c sep then EmptyString :: Split s' sep
      else match Split s' sep with
           | [] => [String c EmptyString]
           | x :: xs => String c x :: xs
           end
  end.

(** Slices [s[:n]] and [s[n:]]. *)
Fixpoint take (n : nat) (s : string) : string :=
  match n, s with
  | S n', String c s' => String c (take n' s')
  | _, _ => EmptyString
  end.

Fixpoint drop (n : nat) (s : string) : string :=
  match n, s with
  | S n', String _ s' => drop n' s'
  | _, _ => s
  end.

(** What the specification calls a contiguous substring. *)
Definition Contains (s substr : string) : Prop :=
  exists pre post, s = pre +++ substr +++ post.

(** ** bufio.Scanner with the default split function ScanLines

    The scanner is code of Go's standard library.  Its observable behaviour
    on a reader that delivers [data] and then ends with [io.EOF] or with a
    read error is modelled on the unread input: a token is the text up to
    the next newline, with one trailing carriage return dropped; input that
    ends without a newline yields its remainder as a last token; a line
    that does not fit in a buffer of [maxTokenSize] bytes (no newline among
    the next [maxTokenSize] bytes) stops the scanner with [ErrTooLong]. *)

Record File : Type := mkFile {
  data : string;               (* the bytes Read delivers *)
  read_err : option error      (* what Read reports after them, None for io.EOF *)
}.

Record Scanner : Type := mkScanner {
  unread : string;
  src_err : option error;
  maxTokenSize : Z
}.

Inductive ScanStep : Type :=
| Token (text : string) (next : Scanner)   (* Scan() = true, Text() = text *)
| Stop (err : option error).               (* Scan() = false, Err() = err *)

(** [dropCR]: drop one trailing carriage return. *)
Fixpoint dropCR (s : string) : string :=
  match s with
  | EmptyString => EmptyString
  | String c EmptyString => if Ascii.eqb c CR then EmptyString else s
  | String c s' => String c (dropCR s')
  end.

Definition NewScanner (f : File) : Scanner :=
  mkScanner (data f) (read_err f) (1024 * 64).

(** [scanner.Buffer(buf, max)]: only the cap is observable. *)
Definition Buffer (sc : Scanner) (bufcap max : Z) : Scanner :=
  mkScanner (unread sc) (src_err sc) max.

Definition Scan (sc : Scanner) : ScanStep :=
  let i := IndexByte (unread sc) NL in
  if (0 <=? i) && (i <? maxTokenSize sc) then
    Token (dropCR (take (Z.to_nat i) (unread sc)))
          (mkScanner (drop (S (Z.to_nat i)) (unread sc)) (src_err sc) (maxTokenSize sc))
  else if maxTokenSize sc <=? len (unread sc) then Stop (Some ErrTooLong)
  else match unread sc with
       | EmptyString => Stop (src_err sc)
       | _ => Token (dropCR (unread sc))
                    (mkScanner EmptyString (src_err sc) (maxTokenSize sc))
       end.

(** The loop of getFileHead (part_000, lines 184-197):
<<
    cnt := 0; lines := []string{}
    for scanner.Scan() {
        lines = append(lines, scanner.Text()); cnt++
        if cnt > 10 { break }
    }
>>
    [fuel] bounds the number of iterations; [None] means it ran out. *)
Fixpoint scan_lines (fuel : nat) (sc : Scanner) (lines : list string) (cnt : Z)
  : option (list string * option error) :=
  match fuel with
  | O => None
  | S fuel' =>
      match Scan sc with
      | Stop e => Some (lines, e)
      | Token text sc' =>
          let lines := lines ++ [text] in
          let cnt := cnt + 1 in
          if cnt >? 10 then Some (lines, None)
          else scan_lines fuel' sc' lines cnt
      end
  end.

(** ** The outside world

    url.Parse, the HTTP client and the file system are collaborators of the
    program; a [World] fixes their answers.  [Version] is a constant of the
    repository declared outside cli.go. *)

Record Request : Type := mkRequest {
  req_method : string;
  req_url : string;
  req_user_agent : string
}.

Record Response : Type := mkResponse {
  Status : string;             (* e.g. the text 200 OK *)
  StatusCode : Z;
  Body : Result string         (* what ioutil.ReadAll(r.Body) returns *)
}.

Record World : Type := mkWorld {
  URL : Type;
  url_Parse : string -> Result URL;
  ResolveReference : URL -> URL -> URL;
  URL_String : URL -> string;
  http_NewRequest : string -> string -> Result Request;
  client_Do : bool -> Z -> Request -> Result Response;
  os_Open : string -> Result File;
  Version : string
}.

(** ** Effects: a trace of events and an error

    [request] talks to the network, opens a file, searches the body and
    logs.  Each of these leaves an event, so that a statement can say which
    effects a probe had and in which order. *)

Inductive Level : Type := ErrorLevel | WarnLevel | InfoLevel.

Inductive Event : Type :=
| EvDo (insecure : bool) (timeout : Z) (req : Request)   (* client.Do(req) *)
| EvOpen (path : string)                                 (* os.Open(path) *)
| EvIndex (body line : string)                           (* strings.Index(body, line) *)
| EvLogf (lvl : Level) (format : string) (args : list string)
| EvLogError (e : error).                                (* logrus.Error(err) *)

Definition M (A : Type) : Type := (list Event * Result A)%type.

Definition ret {A} (a : A) : M A := ([], Ok a).
Definition fail {A} (e : error) : M A := ([], Err e).
Definition tell (ev : Event) : M unit := ([ev], Ok tt).
Definition lift {A} (r : Result A) : M A := ([], r).

Definition bind {A B} (m : M A) (k : A -> M B) : M B :=
  match m with
  | (t, Err e) => (t, Err e)
  | (t, Ok a) => let (t', r) := k a in (t ++ t', r)
  end.

Notation "x <- m ;; k" := (bind m (fun x => k))
  (at level 61, m at next level, right associativity).
Notation "m ;;; k" := (bind m (fun _ => k))
  (at level 61, right associativity).

Definition trace {A} (m : M A) : list Event := fst m.
Definition result {A} (m : M A) : Result A := snd m.

Definition Warnf (format : string) (args : list string) : M unit :=
  tell (EvLogf WarnLevel format args).
Definition Infof (format : string) (args : list string) : M unit :=
  tell (EvLogf InfoLevel format args).

(** The warning that reports a published file (part_000, line 162). *)
Definition published (filePath : string) : Event :=
  EvLogf WarnLevel "This file is published %s" [filePath].

Definition Leaked {A} (filePath : string) (m : M A) : Prop :=
  In (published filePath) (trace m).

Definition is_index (ev : Event) : bool :=
  match ev with EvIndex _ _ => true | _ => false end.
Definition is_open (ev : Event) : bool :=
  match ev with EvOpen _ => true | _ => false end.

(** The lines handed to strings.Index, in call order. *)
Definition compared (t : list Event) : list string :=
  flat_map (fun ev => match ev with EvIndex _ l => [l] | _ => [] end) t.

Section Program.

Variable W : World.

(** urlJoin (part_000, lines 166-176). *)
Definition urlJoin (base path : string) : Result string :=
  match url_Parse W path with
  | Err e => Err e
  | Ok u =>
      match url_Parse W base with
      | Err e => Err e
      | Ok pb => Ok (URL_String W (ResolveReference W pb u))
      end
  end.

(** getFileHead (part_000, lines 178-199).  [scanner.Err()] is never
    consulted: the second component of the loop's result is dropped. *)
Definition getFileHead (path : string) : M (list string) :=
  tell (EvOpen path) ;;;
  fp <- lift (os_Open W path) ;;
  let scanner := NewScanner fp in
  let scanner := Buffer scanner initScanTokenSize MaxScanTokenSize in
  match scan_lines (S (String.length (data fp))) scanner [] 0 with
  | Some (lines, _) => ret lines
  | None => ret []
  end.

(** The loop of request (part_000, lines 157-161): [true] when it runs to
    its end, [false] when a line is missing and request returns nil. *)
Fixpoint all_found (body : string) (lines : list string) : M bool :=
  match lines with
  | [] => ret true
  | l :: rest =>
      tell (EvIndex body l) ;;;
      if Index body l <? 0 then ret false else all_found body rest
  end.

(** The status test of part_000, lines 140-142, negated: [false] sends
    request into the warning branch. *)
Definition accepted (code : Z) : bool :=
  negb (negb (code =? StatusOK) &&
        negb (code =? StatusNotFound) &&
        negb (code =? StatusForbidden)).

(** request (part_000, lines 104-164). *)
Definition request (url : string) (timeout : Z) (insecure : bool)
           (filePath : string) (skipErrors : bool) : M unit :=
  u <- lift (urlJoin url filePath) ;;
  req <- lift (http_NewRequest W "GET" u) ;;
  let ua := "PyamaMultiRequest" +++ "/" +++ Version W in
  let req := mkRequest (req_method req) (req_url req) ua in
  tell (EvDo insecure timeout req) ;;;
  match client_Do W insecure timeout req with
  | Err e =>
      if skipErrors then tell (EvLogError e) ;;; ret tt
      else fail e
  | Ok r =>
      body <- lift (Body r) ;;
      let st := "request: " +++ u +++ " " +++ Status r in
      if negb (accepted (StatusCode r)) then Warnf st [] ;;; ret tt
      else
        Infof st [] ;;;
        lines <- getFileHead filePath ;;
        if (Z.of_nat (length lines) =? 0) && (len body >? 0) then ret tt
        else
          found <- all_found body lines ;;
          if found then Warnf "This file is published %s" [filePath] ;;; ret tt
          else ret tt
  end.

(** The probe of [filePath] was sent to [u] and the server answered [r]. *)
Definition answered (url : string) (timeout : Z) (insecure : bool)
           (filePath u : string) (r : Response) : Prop :=
  urlJoin url filePath = Ok u /\
  exists rq,
    http_NewRequest W "GET" u = Ok rq /\
    client_Do W insecure timeout
      (mkRequest (req_method rq) (req_url rq)
                 ("PyamaMultiRequest" +++ "/" +++ Version W)) = Ok r.

(** The request line that is logged for an answer. *)
Definition status_line (u : string) (r : Response) : string :=
  "request: " +++ u +++ " " +++ Status r.

End Program.

(** ** The dispatcher (part_000, lines 82-101)

<<
    c := make(chan bool, concurrency)
    eg := errgroup.Group{}
    for _, l := range lines {
        if l == "" || l == "\n" { continue }
        c <- true
        eg.Go(func() error {
            defer func() { <-c }()
            return request(url, timeout, insecure, l, skipErrors)
        })
    }
    if err := eg.Wait(); err != nil { logrus.Fatal(err) }
    return ExitCodeOK
>>
    Goroutines interleave, so the loop is a transition system.  The main
    goroutine is either at the head of the range loop or between the send
    on [c] and the call of [eg.Go]; a worker first runs request, then its
    deferred receive on [c], then hands its error to the errgroup, which
    keeps the first one. *)

Inductive Task : Type :=
| Requesting (l : string)                      (* inside request(..., l, ...) *)
| Returned (l : string) (r : Result unit)      (* request returned, [<-c] still to run *)
| Reporting (l : string) (r : Result unit).    (* token given back, error not yet recorded *)

Record RunState : Type := mkRunState {
  pending : list string;      (* lines the range loop has not reached *)
  sending : option string;    (* the line whose token is sent, eg.Go not yet called *)
  chan_len : Z;               (* len(c): tokens in the channel's buffer *)
  tasks : list Task;          (* live worker goroutines *)
  eg_err : option error;      (* the errgroup's first error *)
  started : list string       (* probes started so far, in start order *)
}.

Definition holds_token (t : Task) : bool :=
  match t with
  | Requesting _ | Returned _ _ => true
  | Reporting _ _ => false
  end.

(** Probes in flight: started, and their token not yet given back. *)
Definition in_flight (s : RunState) : Z :=
  Z.of_nat (length (filter holds_token (tasks s))).

Definition first_error (old : option error) (r : Result unit) : option error :=
  match old, r with
  | None, Err e => Some e
  | _, _ => old
  end.

(** The token the main goroutine has sent for a probe it has not started
    yet. *)
Definition sending_count (s : RunState) : Z :=
  match sending s with Some _ => 1 | None => 0 end.

Definition task_line (t : Task) : string :=
  match t with
  | Requesting l | Returned l _ | Reporting l _ => l
  end.

Definition as_list (o : option string) : list string :=
  match o with Some l => [l] | None => [] end.

Section Dispatcher.

Variable cap : Z.                        (* cap(c) *)
Variable skip : string -> bool.          (* the [continue] test *)
Variable probe : string -> Result unit.  (* the error request returns for a line *)

Inductive step : RunState -> RunState -> Prop :=
| step_continue l ls n ts e st :
    skip l = true ->
    step (mkRunState (l :: ls) None n ts e st)
         (mkRunState ls None n ts e st)
| step_send l ls n ts e st :
    skip l = false ->
    n < cap ->
    step (mkRunState (l :: ls) None n ts e st)
         (mkRunState ls (Some l) (n + 1) ts e st)
| step_go l ls n ts e st :
    step (mkRunState ls (Some l) n ts e st)
         (mkRunState ls None n (ts ++ [Requesting l]) e (st ++ [l]))
| step_request l ls sd n t1 t2 e st :
    step (mkRunState ls sd n (t1 ++ Requesting l :: t2) e st)
         (mkRunState ls sd n (t1 ++ Returned l (probe l) :: t2) e st)
| step_release l r ls sd n t1 t2 e st :
    0 < n ->
    step (mkRunState ls sd n (t1 ++ Returned l r :: t2) e st)
         (mkRunState ls sd (n - 1) (t1 ++ Reporting l r :: t2) e st)
| step_report l r ls sd n t1 t2 e st :
    step (mkRunState ls sd n (t1 ++ Reporting l r :: t2) e st)
         (mkRunState ls sd n (t1 ++ t2) (first_error e r) st).

Inductive steps : RunState -> RunState -> Prop :=
| steps_refl s : steps s s
| steps_more s1 s2 s3 : steps s1 s2 -> step s2 s3 -> steps s1 s3.

Definition init (lines : list string) : RunState :=
  mkRunState lines None 0 [] None [].

(** [eg.Wait()] returns: the loop is over and every worker is done. *)
Definition finished (s : RunState) : Prop :=
  pending s = [] /\ sending s = None /\ tasks s = [].

(** *** Invariants of the loop

    The tokens in the channel are those of the probes in flight and of the
    probe about to start, and they never exceed the capacity. *)
Definition token_inv (s : RunState) : Prop :=
  chan_len s = in_flight s + sending_count s /\ chan_len s <= cap.

(** The lines the loop does not skip. *)
Definition wanted (ls : list string) : list string :=
  filter (fun l => negb (skip l)) ls.

(** A worker that has returned carries what request returned for its line. *)
Definition task_ok (t : Task) : Prop :=
  match t with
  | Requesting _ => True
  | Returned l r | Reporting l r => r = probe l
  end.

(** What holds of every state a run reaches from [init lines]. *)
Record run_inv (lines : list string) (s : RunState) : Prop := {
  inv_started :
    started s ++ as_list (sending s) ++ wanted (pending s) = wanted lines;
  inv_tasks : Forall task_ok (tasks s);
  inv_live : forall t, In t (tasks s) -> In (task_line t) (started s);
  inv_failed :
    forall l, In l (started s) -> is_err (probe l) = true ->
              eg_err s <> None \/ exists t, In t (tasks s) /\ task_line t = l;
  inv_err :
    forall e, eg_err s = Some e ->
              exists l, In l (started s) /\ probe l = Err e
}.

End Dispatcher.

(** How a run ends. *)
Inductive Outcome : Type :=
| Exit (code : Z)        (* Run returns this exit code *)
| Fatal (e : error)      (* logrus.Fatal(err): the error is logged, exit status 1 *)
| Panic.                 (* make(chan bool, n) with a negative n *)

Record Config : Type := mkConfig {
  timeout : Z;
  concurrency : Z;
  url : string;
  insecure : bool;
  skipErrors : bool;
  version : bool
}.

Definition skip_line (l : string) : bool :=
  String.eqb l "" || String.eqb l nl.

Definition after_wait (s : RunState) : Outcome :=
  match eg_err s with
  | Some e => Fatal e
  | None => Exit ExitCodeOK
  end.

Section Run.

Variable W : World.
Variable cfg : Config.

Definition probe_of (l : string) : Result unit :=
  result (request W (url cfg) (timeout cfg) (insecure cfg) l (skipErrors cfg)).

(** Run after flag parsing (part_000, lines 72-101): [stdin] is what
    ioutil.ReadAll(os.Stdin) returns; [Run stdin o] when the run can end
    with [o]. *)
Inductive Run (stdin : Result string) : Outcome -> Prop :=
| Run_version :
    version cfg = true ->
    Run stdin (Exit ExitCodeOK)
| Run_stdin_error e :
    version cfg = false ->
    stdin = Err e ->
    Run stdin (Fatal e)
| Run_make_chan_panics body :
    version cfg = false ->
    stdin = Ok body ->
    concurrency cfg < 0 ->
    Run stdin Panic
| Run_dispatch body s :
    version cfg = false ->
    stdin = Ok body ->
    0 <= concurrency cfg ->
    steps (concurrency cfg) skip_line probe_of (init (Split body NL)) s ->
    finished s ->
    Run stdin (after_wait s).

End Run.

(** ** The earlier revision (src/cli.go)

    It differs in three places: the range loop has no [continue] test, only
    status 200 reaches the comparison, and the head reader is a
    bufio.Reader whose ReadString keeps the newline. *)

Module Legacy.

Record Reader : Type := mkReader {
  rd_unread : string;
  rd_err : option error
}.

(** [reader.ReadString('\n')]: the text up to and including the next
    newline; when the input ends first, what is left and a non-nil error
    (io.EOF or the read error), here [true] in the second component. *)
Definition ReadString (rd : Reader) : string * bool * Reader :=
  let i := IndexByte (rd_unread rd) NL in
  if 0 <=? i then
    (take (S (Z.to_nat i)) (rd_unread rd), false,
     mkReader (drop (S (Z.to_nat i)) (rd_unread rd)) (rd_err rd))
  else (rd_unread rd, true, mkReader EmptyString (rd_err rd)).

(** The loop of getFileHead (cli.go, lines 158-164):
<<
    for line := ""; err == nil; line, err = reader.ReadString('\n') {
        lines = append(lines, line); cnt++
        if cnt > 10 { break }
    }
>>
*)
Fixpoint read_lines (fuel : nat) (rd : Reader) (line : string) (failed : bool)
         (lines : list string) (cnt : Z) : option (list string) :=
  match fuel with
  | O => None
  | S fuel' =>
      if failed then Some lines
      else
        let lines := lines ++ [line] in
        let cnt := cnt + 1 in
        if cnt >? 10 then Some lines
        else
          let '(line', failed', rd') := ReadString rd in
          read_lines fuel' rd' line' failed' lines cnt
  end.

Section Program.

Variable W : World.

(** getFileHead (cli.go, lines 147-166). *)
Definition getFileHead (path : string) : M (list string) :=
  tell (EvOpen path) ;;;
  fp <- lift (os_Open W path) ;;
  let reader := mkReader (data fp) (read_err fp) in
  match read_lines (S (S (String.length (data fp)))) reader "" false [] 0 with
  | Some lines => ret lines
  | None => ret []
  end.

(** request (cli.go, lines 95-133); client.Get builds the request itself
    and sends Go's default User-Agent. *)
Definition request (url : string) (timeout : Z) (insecure : bool)
           (filePath : string) : M unit :=
  u <- lift (urlJoin W url filePath) ;;
  req <- lift (http_NewRequest W "GET" u) ;;
  let req := mkRequest (req_method req) (req_url req) "Go-http-client/1.1" in
  tell (EvDo insecure timeout req) ;;;
  r <- lift (client_Do W insecure timeout req) ;;
  body <- lift (Body r) ;;
  Infof "request: %s %s" [u; Status r] ;;;
  if negb (StatusCode r =? StatusOK) then ret tt
  else
    lines <- getFileHead filePath ;;
    found <- all_found body lines ;;
    if found then Warnf "This file is published %s" [filePath] ;;; ret tt
    else ret tt.

Definition probe_of (cfg : Config) (l : string) : Result unit :=
  result (request (url cfg) (timeout cfg) (insecure cfg) l).

End Program.

(** The range loop of cli.go (lines 78-88) sends a token for every line. *)
Definition skip_line (l : string) : bool := false.

End Legacy.

(** ** The path source as the specification words it

    Section 4.1: split on line boundaries and discard the lines that are
    empty or hold white space only. *)

Definition is_space (c : ascii) : bool :=
  Ascii.eqb c " "%char || Ascii.eqb c "009"%char || Ascii.eqb c NL ||
  Ascii.eqb c "011"%char || Ascii.eqb c "012"%char || Ascii.eqb c CR.

Fixpoint whitespace_only (s : string) : bool :=
  match s with
  | EmptyString => true
  | String c s' => is_space c && whitespace_only s'
  end.

Definition spec_paths (raw : string) : list string :=
  filter (fun l => negb (whitespace_only l)) (Split raw NL).

(** ** The head of a file as the specification words it

    Section 4.3: up to 11 lines from the start of the file, in file order,
    without their line terminators. *)

(** [s] holds the byte [c]. *)
Fixpoint has_byte (c : ascii) (s : string) : bool :=
  match s with
  | EmptyString => false
  | String a s' => Ascii.eqb a c || has_byte c s'
  end.

(** The lines of a text: the pieces between newlines, where a final
    newline ends the last line and starts no new one. *)
Fixpoint strip_last (pieces : list string) : list string :=
  match pieces with
  | [] => []
  | [p] => if String.eqb p "" then [] else [p]
  | p :: rest => p :: strip_last rest
  end.

Definition text_lines (s : string) : list string :=
  strip_last (Split s NL).

(** The first [n] lines, each without its terminator (a newline, or a
    carriage return and a newline), stopping short at a line of [max]
    bytes or more. *)
Fixpoint head_lines (n : nat) (max : Z) (ls : list string) : list string :=
  match n, ls with
  | S n', l :: ls' =>
      if len l <? max then dropCR l :: head_lines n' max ls' else []
  | _, _ => []
  end.

(** ** Worlds for examples

    A small world given by two tables: what the server answers per URL and
    what the file system holds per path.  Its url.Parse refuses ASCII
    control characters, as Go's does, and its reference resolution is the
    concatenation that RFC 3986 gives for a base ending in a slash and a
    plain relative path. *)

Definition is_ctl (c : ascii) : bool :=
  (nat_of_ascii c <? 32)%nat || (nat_of_ascii c =? 127)%nat.

Fixpoint has_ctl (s : string) : bool :=
  match s with
  | EmptyString => false
  | String c s' => is_ctl c || has_ctl s'
  end.

Fixpoint lookup {A} (k : string) (table : list (string * A)) : option A :=
  match table with
  | [] => None
  | (k', v) :: rest => if String.eqb k k' then Some v else lookup k rest
  end.

Definition table_world (sites : list (string * Result Response))
           (files : list (string * Result File)) : World :=
  mkWorld string
    (fun s => if has_ctl s then Err (UrlError s) else Ok s)
    (fun base ref => base +++ ref)
    (fun u => u)
    (fun m u => Ok (mkRequest m u ""))
    (fun _ _ req =>
       match lookup (req_url req) sites with
       | Some r => r
       | None => Err (TransportError (req_url req))
       end)
    (fun path =>
       match lookup path files with
       | Some f => f
       | None => Err (PathError path)
       end)
    "0.0.1".

Definition text_file (s : string) : Result File := Ok (mkFile s None).

Definition answer (code : Z) (status body : string) : Result Response :=
  Ok (mkResponse status code (Ok body)).

Definition base_url : string := "https://example.com/site/".

Definition demo_cfg (n : Z) : Config :=
  mkConfig 3 n base_url false false false.

(** The same with the skip-errors flag set. *)
Definition skip_cfg (n : Z) : Config :=
  mkConfig 3 n base_url false true false.

(** A path as it arrives from input with CR LF line ends. *)
Definition crlf_path : string := "notes.txt" +++ String CR "".

(** Scenario A of the specification: both fingerprint lines are served. *)
Definition world_A : World :=
  table_world
    [("https://example.com/site/notes.txt",
      answer 200 "200 OK" "x secret-token-B y secret-token-A z")]
    [("notes.txt", text_file ("secret-token-A" +++ nl +++ "secret-token-B" +++ nl))].

(** Scenario B: only the first line is served. *)
Definition world_B : World :=
  table_world
    [("https://example.com/site/notes.txt",
      answer 200 "200 OK" "only secret-token-A here")]
    [("notes.txt", text_file ("secret-token-A" +++ nl +++ "secret-token-B" +++ nl))].

(** Scenario C: the server answers 500. *)
Definition world_C : World :=
  table_world
    [("https://example.com/site/notes.txt",
      answer 500 "500 Internal Server Error" "secret-token-A secret-token-B")]
    [("notes.txt", text_file ("secret-token-A" +++ nl +++ "secret-token-B" +++ nl))].

(** Scenario D: the local file does not exist. *)
Definition world_D : World :=
  table_world
    [("https://example.com/site/missing.txt", answer 404 "404 Not Found" "not found")]
    [].

(** Scenario E: the local file is empty. *)
Definition world_E : World :=
  table_world
    [("https://example.com/site/empty.txt", answer 200 "200 OK" "hello world")]
    [("empty.txt", text_file "")].

(** An empty local file and an empty answer. *)
Definition world_empty : World :=
  table_world
    [("https://example.com/site/empty.txt", answer 404 "404 Not Found" "")]
    [("empty.txt", text_file "")].

Fixpoint replicate (n : nat) (c : ascii) : string :=
  match n with
  | O => EmptyString
  | S n' => String c (replicate n' c)
  end.

(** A file that is one line of 65536 bytes. *)
Definition long_line : string := replicate (Z.to_nat MaxScanTokenSize) "a"%char.

Definition world_long : World :=
  table_world
    [("https://example.com/site/big.bin", answer 200 "200 OK" "something else")]
    [("big.bin", text_file long_line)].

(** ** Notions used to state further properties *)

Definition is_do (ev : Event) : bool :=
  match ev with EvDo _ _ _ => true | _ => false end.

(** A text file written line by line, each line ended by a newline. *)
Fixpoint unlines (ls : list string) : string :=
  match ls with
  | [] => EmptyString
  | l :: ls' => l +++ nl +++ unlines ls'
  end.

(** The lines of a text that are ended by a newline: the pieces of Split
    but the last. *)
Definition terminated_lines (s : string) : list string :=
  removelast (Split s NL).

(** The probe of cli.go was sent to [u] and the server answered [r]. *)
Definition Legacy_answered (W : World) (url : string) (timeout : Z)
           (insecure : bool) (filePath u : string) (r : Response) : Prop :=
  urlJoin W url filePath = Ok u /\
  exists rq,
    http_NewRequest W "GET" u = Ok rq /\
    client_Do W insecure timeout
      (mkRequest (req_method rq) (req_url rq) "Go-http-client/1.1") = Ok r.

(** The steps a worker has left: request, the deferred receive, the
    report to the errgroup. *)
Definition task_work (t : Task) : nat :=
  match t with
  | Requesting _ => 3
  | Returned _ _ => 2
  | Reporting _ _ => 1
  end.

(** The steps a state has left at most: five per line the loop has not
    reached (send, eg.Go and the three of its worker), four for a token
    that is sent, and what the live workers have left. *)
Definition work (s : RunState) : nat :=
  5 * length (pending s) +
  (match sending s with Some _ => 4 | None => 0 end) +
  list_sum (map task_work (tasks s)).

(** Runs counted by their number of steps. *)
Inductive steps_in (cap : Z) (skip : string -> bool)
          (probe : string -> Result unit) : nat -> RunState -> RunState -> Prop :=
| steps_in_O s : steps_in cap skip probe O s s
| steps_in_S n s1 s2 s3 :
    steps_in cap skip probe n s1 s2 ->
    step cap skip probe s2 s3 ->
    steps_in cap skip probe (S n) s1 s3.

(** * Properties *)

(** ** Strings *)

Lemma prefix_spec (p s : string) :
  String.prefix p s = true <-> exists post, s = p +++ post.
Proof.
  revert s; induction p as [|a p IH]; intros s; simpl.
  - destruct s; simpl; split; intros _; try reflexivity; eexists; reflexivity.
  - destruct s as [|b s]; simpl.
    + split; [discriminate | intros [post H]; discriminate].
    + destruct (ascii_dec a b) as [->|Hab].
      * rewrite IH. split; intros [post H]; exists post; congruence.
      * split; [discriminate | intros [post H]; congruence].
Qed.

Lemma Contains_cons (c : ascii) (s sub : string) :
  Contains (String c s) sub <->
  String.prefix sub (String c s) = true \/ Contains s sub.
Proof.
  split.
  - intros [pre [post H]]. destruct pre as [|a pre]; simpl in H.
    + left. apply prefix_spec. now exists post.
    + right. exists pre, post. congruence.
  - intros [H | [pre [post H]]].
    + apply prefix_spec in H as [post H]. exists "", post. exact H.
    + exists (String c pre), post. simpl. now rewrite H.
Qed.

Lemma Contains_nil (sub : string) :
  Contains "" sub <-> String.prefix sub "" = true.
Proof.
  split.
  - intros [pre [post H]]. destruct pre; [|discriminate].
    destruct sub; [reflexivity | discriminate].
  - intros H. apply prefix_spec in H as [post H]. now exists "", post.
Qed.

Lemma index_from_found (i : Z) (s sub : string) :
  0 <= i -> (0 <= index_from i s sub <-> Contains s sub).
Proof.
  revert i; induction s as [|c s IH]; intros i Hi.
  - rewrite Contains_nil. cbn [index_from].
    destruct (String.prefix sub ""); split; intros H; try lia; congruence.
  - rewrite Contains_cons. cbn [index_from].
    destruct (String.prefix sub (String c s)) eqn:Hp.
    + split; [now left | intros _; exact Hi].
    + rewrite (IH (i + 1)) by lia.
      split; [now right | intros [H|H]; [discriminate | exact H]].
Qed.

(** strings.Index answers a non-negative index exactly for substrings. *)
Lemma Index_found (s sub : string) : 0 <= Index s sub <-> Contains s sub.
Proof. apply index_from_found. lia. Qed.

Lemma Index_missing (s sub : string) :
  (Index s sub <? 0) = true <-> ~ Contains s sub.
Proof. rewrite Z.ltb_lt, <- Index_found. lia. Qed.

Lemma Index_present (s sub : string) :
  (Index s sub <? 0) = false <-> Contains s sub.
Proof. rewrite Z.ltb_ge. apply Index_found. Qed.

(** ** Lines: Split, IndexByte and the scanner *)

Lemma Split_nonempty (s : string) (c : ascii) : Split s c <> [].
Proof.
  destruct s as [|a s]; simpl; [discriminate|].
  destruct (Ascii.eqb a c); [discriminate|].
  destruct (Split s c); discriminate.
Qed.

Lemma strip_last_cons (p : string) (ps : list string) :
  ps <> [] -> strip_last (p :: ps) = p :: strip_last ps.
Proof. destruct ps; [congruence | reflexivity]. Qed.

(** Where the first newline stands decides the first piece of Split. *)
Lemma index_byte_Split (s : string) (i : Z) :
  (index_byte_from i s NL = -1 /\ Split s NL = [s]) \/
  (exists k : nat,
      index_byte_from i s NL = i + Z.of_nat k /\
      (k < String.length s)%nat /\
      Split s NL = take k s :: Split (drop (S k) s) NL).
Proof.
  revert i; induction s as [|a s IH]; intros i.
  - left. split; reflexivity.
  - cbn [index_byte_from Split]. destruct (Ascii.eqb a NL) eqn:Ha.
    + right. exists 0%nat. simpl. repeat split; [lia | lia].
    + destruct (IH (i + 1)) as [[Hi Hs] | [k [Hi [Hk Hs]]]].
      * left. rewrite Hi, Hs. split; reflexivity.
      * right. exists (S k). rewrite Hi, Hs. simpl.
        repeat split; lia.
Qed.

Lemma text_lines_no_newline (s : string) :
  Split s NL = [s] ->
  text_lines s = if String.eqb s "" then [] else [s].
Proof. unfold text_lines. intros ->. reflexivity. Qed.

Lemma text_lines_newline (s : string) (k : nat) :
  Split s NL = take k s :: Split (drop (S k) s) NL ->
  text_lines s = take k s :: text_lines (drop (S k) s).
Proof.
  unfold text_lines. intros ->. apply strip_last_cons, Split_nonempty.
Qed.

Lemma length_take (k : nat) (s : string) :
  (k <= String.length s)%nat -> String.length (take k s) = k.
Proof.
  revert s; induction k as [|k IH]; intros [|a s] H; simpl in *; try lia.
  rewrite IH; lia.
Qed.

Lemma length_drop (k : nat) (s : string) :
  (k <= String.length s)%nat ->
  String.length (drop k s) = (String.length s - k)%nat.
Proof.
  revert s; induction k as [|k IH]; intros [|a s] H; simpl in *; try lia.
  apply IH; lia.
Qed.

Lemma text_lines_empty : text_lines "" = [].
Proof. reflexivity. Qed.

(** The loop of getFileHead computes [head_lines], whatever the scanner's
    final error is, and never runs out of fuel. *)
Lemma scan_lines_spec (fuel : nat) :
  forall (s : string) (e : option error) (max : Z) (acc : list string) (cnt : Z),
    0 < max ->
    (String.length s < fuel)%nat ->
    0 <= cnt <= 10 ->
    exists err,
      scan_lines fuel (mkScanner s e max) acc cnt =
      Some (acc ++ head_lines (Z.to_nat (11 - cnt)) max (text_lines s), err).
Proof.
  induction fuel as [|fuel IH]; intros s e max acc cnt Hmax Hfuel Hcnt; [lia|].
  replace (Z.to_nat (11 - cnt)) with (S (Z.to_nat (10 - cnt))) by lia.
  cbn [scan_lines]. unfold Scan, IndexByte. cbn [unread src_err maxTokenSize].
  destruct (index_byte_Split s 0) as [[Hi Hs] | [k [Hi [Hk Hs]]]].
  - rewrite Hi. change ((0 <=? -1) && (-1 <? max)) with false.
    cbv iota. rewrite (text_lines_no_newline s Hs).
    destruct (max <=? len s) eqn:Hlen.
    + exists (Some ErrTooLong). f_equal. f_equal.
      destruct s as [|a s]; [unfold len in Hlen; simpl in Hlen; lia|].
      cbn [String.eqb head_lines].
      replace (len (String a s) <? max) with false by lia.
      now rewrite app_nil_r.
    + destruct s as [|a s].
      * exists e. simpl. now rewrite app_nil_r.
      * assert (String.eqb (String a s) "" = false) as -> by reflexivity.
        cbn [head_lines].
        replace (len (String a s) <? max) with true by lia.
        destruct (cnt + 1 >? 10) eqn:Hc.
        -- exists None. replace (Z.to_nat (10 - cnt)) with 0%nat by lia.
           reflexivity.
        -- destruct (IH "" e max (acc ++ [dropCR (String a s)]) (cnt + 1))
             as [err Herr]; [lia | simpl in *; lia | lia |].
           exists err. rewrite Herr. rewrite text_lines_empty.
           replace (Z.to_nat (10 - cnt)) with (S (Z.to_nat (10 - (cnt + 1)))) by lia.
           cbn [head_lines]. f_equal. f_equal.
           rewrite <- app_assoc. f_equal.
           destruct (Z.to_nat (11 - (cnt + 1))); reflexivity.
  - rewrite Hi. rewrite (text_lines_newline s k Hs).
    replace (0 <=? 0 + Z.of_nat k) with true by lia. cbn [andb].
    replace (Z.to_nat (0 + Z.of_nat k)) with k by lia.
    cbn [head_lines].
    assert (len (take k s) = Z.of_nat k) as Hlt
        by (unfold len; rewrite length_take; lia).
    rewrite Hlt.
    destruct (Z.of_nat k <? max) eqn:Hfit.
    + replace (0 + Z.of_nat k <? max) with true by lia.
      destruct (cnt + 1 >? 10) eqn:Hc.
      * exists None. replace (Z.to_nat (10 - cnt)) with 0%nat by lia.
        reflexivity.
      * destruct (IH (drop (S k) s) e max (acc ++ [dropCR (take k s)]) (cnt + 1))
          as [err Herr]; [lia | rewrite length_drop; lia | lia |].
        exists err. rewrite Herr. f_equal. f_equal.
        rewrite <- app_assoc.
        replace (Z.to_nat (11 - (cnt + 1))) with (Z.to_nat (10 - cnt)) by lia.
        reflexivity.
    + replace (0 + Z.of_nat k <? max) with false by lia.
      replace (max <=? len s) with true by (unfold len; lia).
      exists (Some ErrTooLong). now rewrite app_nil_r.
Qed.



Lemma head_lines_fit (n : nat) (max : Z) (ls : list string) :
  Forall (fun l => len l < max) (firstn n ls) ->
  head_lines n max ls = firstn n (map dropCR ls).
Proof.
  revert ls; induction n as [|n IH]; intros [|l ls] H; simpl; try reflexivity.
  simpl in H. inversion H as [|? ? Hl Hls]; subst.
  replace (len l <? max) with true by lia.
  f_equal. now apply IH.
Qed.

(** ** The probe *)

Section ProgramFacts.

Variable W : World.

Lemma getFileHead_open_fails (path : string) (e : error) :
  os_Open W path = Err e ->
  getFileHead W path = ([EvOpen path], Err e).
Proof. intros H. unfold getFileHead. rewrite H. reflexivity. Qed.

(** The head reader is total on a file that opens, and returns
    [head_lines] of the file's lines. *)
Lemma getFileHead_spec (path : string) (fp : File) :
  os_Open W path = Ok fp ->
  getFileHead W path =
  ([EvOpen path], Ok (head_lines 11 MaxScanTokenSize (text_lines (data fp)))).
Proof.
  intros H. unfold getFileHead. rewrite H.
  destruct (scan_lines_spec (S (String.length (data fp))) (data fp) (read_err fp)
              MaxScanTokenSize [] 0) as [err Herr];
    [reflexivity | lia | lia |].
  cbn [lift tell bind app]. unfold Buffer, NewScanner.
  cbn [unread src_err]. rewrite Herr. reflexivity.
Qed.

Lemma all_found_all (body : string) (lines : list string) :
  Forall (Contains body) lines ->
  all_found body lines = (map (EvIndex body) lines, Ok true).
Proof.
  induction 1 as [|l ls Hl _ IH]; [reflexivity|].
  cbn [all_found]. apply Index_present in Hl. rewrite Hl, IH. reflexivity.
Qed.

Lemma all_found_stop (body : string) (pre : list string) (l : string)
      (post : list string) :
  Forall (Contains body) pre ->
  ~ Contains body l ->
  all_found body (pre ++ l :: post) = (map (EvIndex body) (pre ++ [l]), Ok false).
Proof.
  intros Hpre Hl. induction Hpre as [|p ps Hp _ IH].
  - cbn [all_found app]. apply Index_missing in Hl. rewrite Hl. reflexivity.
  - cbn [all_found app]. apply Index_present in Hp. rewrite Hp, IH. reflexivity.
Qed.

(** Either every line is in the body, or there is a first one that is not. *)
Lemma first_missing (body : string) (lines : list string) :
  Forall (Contains body) lines \/
  exists pre l post,
    lines = pre ++ l :: post /\ Forall (Contains body) pre /\ ~ Contains body l.
Proof.
  induction lines as [|l ls IH]; [left; constructor|].
  destruct (Index body l <? 0) eqn:Hl.
  - right. exists [], l, ls. repeat split; [constructor | now apply Index_missing].
  - apply Index_present in Hl. destruct IH as [IH | [pre [m [post [E [Hp Hm]]]]]].
    + left. now constructor.
    + right. exists (l :: pre), m, post. rewrite E. repeat split; auto.
Qed.

End ProgramFacts.

Lemma accepted_spec (code : Z) :
  accepted code = true <-> code = 200 \/ code = 404 \/ code = 403.
Proof.
  unfold accepted, StatusOK, StatusNotFound, StatusForbidden.
  destruct (code =? 200) eqn:H1, (code =? 404) eqn:H2, (code =? 403) eqn:H3;
    cbn; split; intros H; try reflexivity; try discriminate; lia.
Qed.

Lemma getFileHead_trace (W : World) (path : string) :
  getFileHead W path = ([EvOpen path], result (getFileHead W path)).
Proof.
  destruct (os_Open W path) as [fp|e] eqn:H.
  - now rewrite (getFileHead_spec W path fp H).
  - now rewrite (getFileHead_open_fails W path e H).
Qed.

Lemma compared_app (t1 t2 : list Event) :
  compared (t1 ++ t2) = compared t1 ++ compared t2.
Proof. apply flat_map_app. Qed.

Lemma compared_index (body : string) (ls : list string) :
  compared (map (EvIndex body) ls) = ls.
Proof. induction ls as [|l ls IH]; simpl; [reflexivity | now rewrite IH]. Qed.

Lemma published_not_index (filePath body : string) (ls : list string) :
  ~ In (published filePath) (map (EvIndex body) ls).
Proof. intros H. apply in_map_iff in H as [x [H _]]. discriminate. Qed.

Section RequestFacts.

Variable W : World.
Variables (url : string) (timeout : Z) (insecure : bool) (skipErrors : bool).
Variables (filePath u : string) (r : Response) (body : string).

Hypothesis Hanswered : answered W url timeout insecure filePath u r.
Hypothesis Hbody : Body r = Ok body.

Ltac enter_request :=
  let rq := fresh "rq" in
  let Hjoin := fresh "Hjoin" in
  let Hnew := fresh "Hnew" in
  let Hdo := fresh "Hdo" in
  destruct Hanswered as [Hjoin [rq [Hnew Hdo]]];
  unfold request; rewrite Hjoin; cbn [lift bind app]; rewrite Hnew;
  cbn [lift bind app tell]; rewrite Hdo, Hbody; cbn [lift bind app].

(** A status outside 200, 404 and 403: one warning, then [return nil]. *)
Lemma request_rejected :
  accepted (StatusCode r) = false ->
  exists rq,
    request W url timeout insecure filePath skipErrors =
    ([EvDo insecure timeout rq; EvLogf WarnLevel (status_line u r) []], Ok tt).
Proof.
  intros Hst. enter_request. rewrite Hst. eexists. reflexivity.
Qed.

(** An accepted status and a file that does not open: the error of
    os.Open is what request returns. *)
Lemma request_open_fails (e : error) :
  accepted (StatusCode r) = true ->
  os_Open W filePath = Err e ->
  exists rq,
    request W url timeout insecure filePath skipErrors =
    ([EvDo insecure timeout rq; EvLogf InfoLevel (status_line u r) [];
      EvOpen filePath], Err e).
Proof.
  intros Hst Hopen. enter_request. rewrite Hst.
  rewrite (getFileHead_open_fails W filePath e Hopen).
  eexists. reflexivity.
Qed.

Variable lines : list string.
Hypothesis Hst : accepted (StatusCode r) = true.
Hypothesis Hhead : result (getFileHead W filePath) = Ok lines.

Ltac enter_compare :=
  enter_request; rewrite Hst;
  rewrite (getFileHead_trace W filePath), Hhead;
  cbn [negb Infof Warnf tell bind app ret].

(** The guard of line 153: no local lines and a body that is not empty. *)
Lemma request_guard :
  lines = [] -> 0 < len body ->
  exists rq,
    request W url timeout insecure filePath skipErrors =
    ([EvDo insecure timeout rq; EvLogf InfoLevel (status_line u r) [];
      EvOpen filePath], Ok tt).
Proof.
  intros -> Hlen. enter_compare.
  replace (len body >? 0) with true by lia.
  eexists. reflexivity.
Qed.

Lemma request_all_found :
  lines <> [] \/ len body = 0 ->
  Forall (Contains body) lines ->
  exists rq,
    request W url timeout insecure filePath skipErrors =
    ([EvDo insecure timeout rq; EvLogf InfoLevel (status_line u r) [];
      EvOpen filePath] ++ map (EvIndex body) lines ++ [published filePath],
     Ok tt).
Proof.
  intros Hguard Hall. enter_compare.
  assert ((Z.of_nat (length lines) =? 0) && (len body >? 0) = false) as ->.
  { destruct Hguard as [Hne | Hz].
    - destruct lines; [congruence | reflexivity].
    - rewrite Hz. apply andb_false_r. }
  rewrite (all_found_all body lines Hall).
  eexists. reflexivity.
Qed.

Lemma request_line_missing (pre : list string) (l : string) (post : list string) :
  lines = pre ++ l :: post ->
  Forall (Contains body) pre ->
  ~ Contains body l ->
  exists rq,
    request W url timeout insecure filePath skipErrors =
    ([EvDo insecure timeout rq; EvLogf InfoLevel (status_line u r) [];
      EvOpen filePath] ++ map (EvIndex body) (pre ++ [l]),
     Ok tt).
Proof.
  intros E Hpre Hl. enter_compare.
  assert ((Z.of_nat (length lines) =? 0) && (len body >? 0) = false) as ->.
  { rewrite E. destruct pre; reflexivity. }
  rewrite E, (all_found_stop body pre l post Hpre Hl).
  cbn [bind ret app]. rewrite app_nil_r. eexists. reflexivity.
Qed.

End RequestFacts.

(** ** The dispatcher *)

Lemma holders_middle (t1 t2 : list Task) (t : Task) :
  Z.of_nat (length (filter holds_token (t1 ++ t :: t2))) =
  Z.of_nat (length (filter holds_token t1)) +
  (if holds_token t then 1 else 0) +
  Z.of_nat (length (filter holds_token t2)).
Proof.
  rewrite filter_app, length_app. cbn [filter].
  destruct (holds_token t); cbn [length]; lia.
Qed.

Lemma holders_removed (t1 t2 : list Task) :
  Z.of_nat (length (filter holds_token (t1 ++ t2))) =
  Z.of_nat (length (filter holds_token t1)) +
  Z.of_nat (length (filter holds_token t2)).
Proof. rewrite filter_app, length_app. lia. Qed.

Section DispatcherFacts.

Variable cap : Z.
Variable skip : string -> bool.
Variable probe : string -> Result unit.

Local Abbreviation step := (step cap skip probe).
Local Abbreviation steps := (steps cap skip probe).
Local Abbreviation token_inv := (token_inv cap).
Local Abbreviation wanted := (wanted skip).
Local Abbreviation task_ok := (task_ok probe).
Local Abbreviation run_inv := (run_inv skip probe).

Lemma steps_one (s1 s2 : RunState) : step s1 s2 -> steps s1 s2.
Proof. intros H. eapply steps_more; [apply steps_refl | exact H]. Qed.

Lemma steps_trans (s1 s2 s3 : RunState) :
  steps s1 s2 -> steps s2 s3 -> steps s1 s3.
Proof.
  intros H12 H23. induction H23 as [|s2 s3 s4 _ IH Hstep]; [exact H12|].
  eapply steps_more; [apply IH; exact H12 | exact Hstep].
Qed.

(** *** Tokens *)

Lemma token_inv_step (s s' : RunState) :
  token_inv s -> step s s' -> token_inv s'.
Proof.
  unfold token_inv, in_flight, sending_count.
  intros [Heq Hcap] Hstep; destruct Hstep; cbn [chan_len tasks sending] in *;
    rewrite ?holders_middle, ?holders_removed in *; cbn [holds_token] in *;
    try (split; lia).
  cbn [filter length] in *. split; lia.
Qed.

Lemma token_inv_steps (lines : list string) (s : RunState) :
  0 <= cap -> steps (init lines) s -> token_inv s.
Proof.
  intros Hcap H. remember (init lines) as s0 eqn:E.
  induction H as [|s1 s2 s3 _ IH Hstep]; subst.
  - unfold token_inv, in_flight, sending_count. cbn. lia.
  - eapply token_inv_step; [apply IH; reflexivity | exact Hstep].
Qed.

(** The deferred receive of a worker that has returned can always run. *)
Lemma release_enabled (s : RunState) (t1 t2 : list Task) (l : string)
      (r : Result unit) :
  token_inv s ->
  tasks s = t1 ++ Returned l r :: t2 ->
  step s (mkRunState (pending s) (sending s) (chan_len s - 1)
                     (t1 ++ Reporting l r :: t2) (eg_err s) (started s)).
Proof.
  intros [Heq _] Ht. destruct s as [ls sd n ts e st]; cbn in *. subst ts.
  apply step_release.
  unfold in_flight, sending_count in Heq. cbn [tasks sending] in Heq.
  rewrite holders_middle in Heq. cbn [holds_token] in Heq.
  destruct sd; lia.
Qed.

(** *** Which probes start, and what the errgroup keeps *)

Lemma run_inv_init (lines : list string) : run_inv lines (init lines).
Proof.
  constructor; cbn; try reflexivity; try constructor; try tauto.
  intros e H; discriminate.
Qed.

Lemma Forall_middle {A} (P : A -> Prop) (l1 l2 : list A) (x : A) :
  Forall P (l1 ++ x :: l2) <-> Forall P l1 /\ P x /\ Forall P l2.
Proof.
  rewrite Forall_app. split.
  - intros [H1 H2]. inversion H2; subst. auto.
  - intros [H1 [Hx H2]]. split; [|constructor]; auto.
Qed.

Lemma in_middle {A} (l1 l2 : list A) (x y : A) :
  In y (l1 ++ x :: l2) <-> y = x \/ In y (l1 ++ l2).
Proof.
  rewrite !in_app_iff. cbn. split; intros H; intuition (subst; auto).
Qed.

Lemma run_inv_step (lines : list string) (s s' : RunState) :
  run_inv lines s -> step s s' -> run_inv lines s'.
Proof.
  intros [Hst Hok Hlive Hfail Herr] Hstep.
  destruct Hstep; cbn [pending sending tasks eg_err started] in *.
  - (* continue *)
    constructor; cbn [pending sending tasks eg_err started]; auto.
    rewrite <- Hst. unfold wanted. cbn [filter]. now rewrite H.
  - (* send *)
    constructor; cbn [pending sending tasks eg_err started]; auto.
    rewrite <- Hst. unfold wanted. cbn [filter as_list app]. now rewrite H.
  - (* go *)
    constructor; cbn [pending sending tasks eg_err started].
    + rewrite <- Hst. cbn [as_list app]. now rewrite <- app_assoc.
    + apply Forall_app. split; [exact Hok | repeat constructor].
    + intros t Ht. apply in_app_iff in Ht as [Ht | [<- | []]].
      * apply in_app_iff. left. now apply Hlive.
      * apply in_app_iff. right. now left.
    + intros l' Hl' He. apply in_app_iff in Hl' as [Hl' | [<- | []]].
      * destruct (Hfail l' Hl' He) as [H | [t [Ht Htl]]]; [now left|].
        right. exists t. split; [apply in_app_iff; now left | exact Htl].
      * right. exists (Requesting l). split; [|reflexivity].
        apply in_app_iff. right. now left.
    + intros e' He'. destruct (Herr e' He') as [l' [Hl' Hp]].
      exists l'. split; [apply in_app_iff; now left | exact Hp].
  - (* request *)
    apply Forall_middle in Hok as [Hok1 [_ Hok2]].
    constructor; cbn [pending sending tasks eg_err started]; auto.
    + apply Forall_middle. repeat split; auto.
    + intros t Ht. apply in_middle in Ht as [-> | Ht].
      * apply (Hlive (Requesting l)). apply in_middle. now left.
      * apply Hlive. apply in_middle. now right.
    + intros l' Hl' He. destruct (Hfail l' Hl' He) as [H | [t [Ht Htl]]]; [now left|].
      right. apply in_middle in Ht as [-> | Ht].
      * exists (Returned l (probe l)). split; [apply in_middle; now left | exact Htl].
      * exists t. split; [apply in_middle; now right | exact Htl].
  - (* release *)
    apply Forall_middle in Hok as [Hok1 [Hr Hok2]].
    constructor; cbn [pending sending tasks eg_err started]; auto.
    + apply Forall_middle. repeat split; auto.
    + intros t Ht. apply in_middle in Ht as [-> | Ht].
      * apply (Hlive (Returned l r)). apply in_middle. now left.
      * apply Hlive. apply in_middle. now right.
    + intros l' Hl' He. destruct (Hfail l' Hl' He) as [Hn | [t [Ht Htl]]]; [now left|].
      right. apply in_middle in Ht as [-> | Ht].
      * exists (Reporting l r). split; [apply in_middle; now left | exact Htl].
      * exists t. split; [apply in_middle; now right | exact Htl].
  - (* report *)
    apply Forall_middle in Hok as [Hok1 [Hr Hok2]]. cbn in Hr.
    constructor; cbn [pending sending tasks eg_err started]; auto.
    + apply Forall_app. split; auto.
    + intros t Ht. apply Hlive. apply in_middle. now right.
    + intros l' Hl' He. destruct (Hfail l' Hl' He) as [Hn | [t [Ht Htl]]].
      * left. destruct e; [discriminate | contradiction].
      * apply in_middle in Ht as [-> | Ht].
        -- left. cbn in Htl. subst l' r.
           destruct e; [discriminate|]. cbn.
           destruct (probe l); [discriminate | discriminate].
        -- right. exists t. split; assumption.
    + intros e' He'. destruct e as [e0|].
      * apply Herr. exact He'.
      * destruct r as [[]|e0]; cbn in He'; [discriminate|].
        injection He' as <-. exists l. split; [|now symmetry].
        apply (Hlive (Reporting l (Err e0))). apply in_middle. now left.
Qed.

Lemma run_inv_steps (lines : list string) (s : RunState) :
  steps (init lines) s -> run_inv lines s.
Proof.
  intros H. remember (init lines) as s0 eqn:E.
  induction H as [|s1 s2 s3 _ IH Hstep]; subst.
  - apply run_inv_init.
  - eapply run_inv_step; [apply IH; reflexivity | exact Hstep].
Qed.

(** When [eg.Wait()] returns, every wanted line has been probed, in input
    order, and the errgroup holds an error exactly when a probe failed. *)
Lemma finished_run (lines : list string) (s : RunState) :
  steps (init lines) s -> finished s ->
  started s = wanted lines /\
  (forall l, In l (wanted lines) -> is_err (probe l) = true -> eg_err s <> None) /\
  (forall e, eg_err s = Some e ->
             exists l, In l (wanted lines) /\ probe l = Err e).
Proof.
  intros Hsteps [Hp [Hs Ht]].
  destruct (run_inv_steps lines s Hsteps) as [Hst _ _ Hfail Herr].
  rewrite Hp, Hs in Hst. cbn in Hst. rewrite app_nil_r in Hst.
  rewrite <- Hst. repeat split; auto.
  intros l Hl He. destruct (Hfail l Hl He) as [H | [t [Hin _]]]; [exact H|].
  rewrite Ht in Hin. destruct Hin.
Qed.

(** With room for one token the loop can always run to its end. *)
Lemma run_to_completion (ls : list string) :
  1 <= cap ->
  forall (e : option error) (st : list string),
  exists s, steps (mkRunState ls None 0 [] e st) s /\ finished s.
Proof.
  intros Hcap. induction ls as [|l ls IH]; intros e st.
  - eexists. split; [apply steps_refl | repeat split].
  - destruct (skip l) eqn:Hskip.
    + destruct (IH e st) as [s [Hs Hf]]. exists s. split; [|exact Hf].
      eapply steps_trans; [apply steps_one, step_continue, Hskip | exact Hs].
    + destruct (IH (first_error e (probe l)) (st ++ [l])) as [s [Hs Hf]].
      exists s. split; [|exact Hf].
      eapply steps_trans; [apply steps_one, step_send; [exact Hskip | lia]|].
      eapply steps_trans; [apply steps_one, step_go|].
      eapply steps_trans;
        [apply steps_one, (step_request cap skip probe l ls None (0 + 1) [] [])|].
      eapply steps_trans;
        [apply steps_one,
           (step_release cap skip probe l (probe l) ls None (0 + 1) [] []); lia|].
      eapply steps_trans;
        [apply steps_one,
           (step_report cap skip probe l (probe l) ls None (0 + 1 - 1) [] [])|].
      exact Hs.
Qed.

End DispatcherFacts.

(** ** Runs *)

Lemma Split_no_sep (s : string) (c : ascii) :
  Forall (fun p => has_byte c p = false) (Split s c).
Proof.
  induction s as [|a s IH]; cbn [Split].
  - repeat constructor.
  - destruct (Ascii.eqb a c) eqn:Ha.
    + constructor; [reflexivity | exact IH].
    + destruct (Split s c) as [|x xs]; [repeat constructor; cbn; now rewrite Ha|].
      inversion IH; subst. constructor; [cbn; now rewrite Ha | assumption].
Qed.

Lemma Split_piece_not_nl (s x : string) :
  In x (Split s NL) -> String.eqb x nl = false.
Proof.
  intros Hin. apply String.eqb_neq. intros ->.
  pose proof (Split_no_sep s NL) as H. rewrite Forall_forall in H.
  specialize (H _ Hin). discriminate.
Qed.

(** On the pieces of Split the test of line 89 is the test for the empty
    string: its second half never fires. *)
Lemma wanted_skip_line (s : string) :
  wanted skip_line (Split s NL) =
  filter (fun l => negb (String.eqb l "")) (Split s NL).
Proof.
  unfold wanted. apply filter_ext_in. intros x Hx. unfold skip_line.
  rewrite (Split_piece_not_nl s x Hx). now rewrite orb_false_r.
Qed.

Section RunFacts.

Variable W : World.
Variable cfg : Config.

Lemma Run_total (body : string) :
  version cfg = false -> 1 <= concurrency cfg ->
  exists o, Run W cfg (Ok body) o.
Proof.
  intros Hv Hc.
  destruct (run_to_completion (concurrency cfg) skip_line (probe_of W cfg)
              (Split body NL) Hc None []) as [s [Hs Hf]].
  exists (after_wait s). eapply Run_dispatch; eauto. lia.
Qed.

(** One failing probe is enough for the run to end in logrus.Fatal. *)
Lemma failing_probe_is_fatal (body l : string) (e : error) (o : Outcome) :
  version cfg = false -> 0 <= concurrency cfg ->
  In l (Split body NL) -> l <> "" ->
  probe_of W cfg l = Err e ->
  Run W cfg (Ok body) o ->
  exists e' l', o = Fatal e' /\ In l' (Split body NL) /\ probe_of W cfg l' = Err e'.
Proof.
  intros Hv Hc Hin Hne Hp Hrun.
  inversion Hrun as [Hv' | e0 Hv' He | b Hv' Hb Hneg | b s Hv' Hb Hc' Hsteps Hfin];
    subst; try congruence; try lia.
  injection Hb as <-.
  destruct (finished_run _ _ _ _ _ Hsteps Hfin) as [_ [Hfail Herr]].
  assert (In l (wanted skip_line (Split body NL))) as Hw.
  { unfold wanted. apply filter_In. split; [exact Hin|].
    unfold skip_line. rewrite (Split_piece_not_nl body l Hin).
    apply String.eqb_neq in Hne. now rewrite Hne. }
  assert (eg_err s <> None) as Hsome by (apply (Hfail l Hw); now rewrite Hp).
  unfold after_wait. destruct (eg_err s) as [e'|] eqn:He'; [|congruence].
  destruct (Herr e' eq_refl) as [l' [Hl' Hp']].
  exists e', l'. repeat split; [|exact Hp'].
  unfold wanted in Hl'. now apply filter_In in Hl'.
Qed.

End RunFacts.

(** * The claims *)

(** ** Match evaluator *)

(** C1: for a probe that was answered with status 200, 404 or 403 and whose
    fingerprint is not empty, request logs the file as published exactly
    when every fingerprint line is a contiguous substring of the body, in
    whatever order the lines stand; the lines are handed to strings.Index
    in fingerprint order and the search stops at the first line that is
    missing, in which case nothing is reported. *)
Theorem request_leaked_iff_all_lines_found
        (W : World) (url : string) (timeout : Z) (insecure skipErrors : bool)
        (filePath u : string) (r : Response) (body : string)
        (lines : list string) :
  answered W url timeout insecure filePath u r ->
  Body r = Ok body ->
  StatusCode r = 200 \/ StatusCode r = 404 \/ StatusCode r = 403 ->
  result (getFileHead W filePath) = Ok lines ->
  lines <> [] ->
  result (request W url timeout insecure filePath skipErrors) = Ok tt /\
  (Leaked filePath (request W url timeout insecure filePath skipErrors) <->
   Forall (Contains body) lines) /\
  (Forall (Contains body) lines ->
   compared (trace (request W url timeout insecure filePath skipErrors)) = lines) /\
  (forall pre l post,
      lines = pre ++ l :: post ->
      Forall (Contains body) pre ->
      ~ Contains body l ->
      compared (trace (request W url timeout insecure filePath skipErrors)) =
      pre ++ [l]).
Proof.
  intros Hans Hbody Hcode Hhead Hne. apply accepted_spec in Hcode.
  destruct (first_missing body lines) as [Hall | [pre [l [post [E [Hpre Hl]]]]]].
  - destruct (request_all_found W url timeout insecure skipErrors filePath u r
                body Hans Hbody lines Hcode Hhead (or_introl Hne) Hall)
      as [rq Hreq].
    rewrite Hreq. cbn [result trace fst snd]. repeat split.
    + intros _. exact Hall.
    + intros _. unfold Leaked. cbn [trace fst].
      apply in_app_iff. right. apply in_app_iff. right. now left.
    + intros _. rewrite !compared_app, compared_index. cbn. apply app_nil_r.
    + intros pre l post E Hpre Hl. exfalso. apply Hl.
      rewrite E in Hall. apply Forall_app in Hall as [_ Hall].
      now inversion Hall.
  - destruct (request_line_missing W url timeout insecure skipErrors filePath u r
                body Hans Hbody lines Hcode Hhead pre l post E Hpre Hl)
      as [rq Hreq].
    assert (~ Forall (Contains body) lines) as Hnot.
    { intros Hall. rewrite E in Hall. apply Forall_app in Hall as [_ Hall].
      inversion Hall; contradiction. }
    rewrite Hreq. cbn [result trace fst snd]. repeat split.
    + unfold Leaked. cbn [trace fst]. intros Hin.
      apply in_app_iff in Hin as [Hin | Hin].
      * cbn in Hin. destruct Hin as [H | [H | [H | []]]]; discriminate.
      * now apply published_not_index in Hin.
    + intros Hall. contradiction.
    + intros Hall. contradiction.
    + intros pre' l' post' E' Hpre' Hl'.
      rewrite compared_app, compared_index. cbn [compared flat_map app].
      (* the first missing line is unique *)
      clear Hreq Hhead Hne Hnot. subst lines. revert pre' E' Hpre'.
      induction pre as [|p pre IH]; intros [|p' pre'] E' Hpre'; cbn in E'.
      * congruence.
      * injection E' as -> _. inversion Hpre'; contradiction.
      * injection E' as -> _. inversion Hpre; contradiction.
      * injection E' as <- E'. inversion Hpre; inversion Hpre'; subst.
        cbn. f_equal. now apply IH.
Qed.

Lemma request_leaked_iff_all_lines_found_witness :
  Leaked "notes.txt" (request world_A base_url 3 false "notes.txt" false) <->
  Forall (Contains "x secret-token-B y secret-token-A z")
         ["secret-token-A"; "secret-token-B"].
Proof.
  refine (proj1 (proj2
    (request_leaked_iff_all_lines_found world_A base_url 3 false false
       "notes.txt" "https://example.com/site/notes.txt"
       (mkResponse "200 OK" 200 (Ok "x secret-token-B y secret-token-A z"))
       "x secret-token-B y secret-token-A z"
       ["secret-token-A"; "secret-token-B"] _ _ _ _ _))).
  - split; [reflexivity | eexists; split; reflexivity].
  - reflexivity.
  - left; reflexivity.
  - reflexivity.
  - discriminate.
Defined.

(** C2: when the answer's status is none of 200, 404 and 403, request
    neither opens the local file nor calls strings.Index, reports nothing as
    published, and, once the body is read, logs the request line as a
    warning and returns nil. *)
Theorem request_other_status_skips_evaluator
        (W : World) (url : string) (timeout : Z) (insecure skipErrors : bool)
        (filePath u : string) (r : Response) :
  answered W url timeout insecure filePath u r ->
  ~ (StatusCode r = 200 \/ StatusCode r = 404 \/ StatusCode r = 403) ->
  ~ Leaked filePath (request W url timeout insecure filePath skipErrors) /\
  (forall ev, In ev (trace (request W url timeout insecure filePath skipErrors)) ->
              is_open ev = false /\ is_index ev = false) /\
  (forall body, Body r = Ok body ->
     result (request W url timeout insecure filePath skipErrors) = Ok tt /\
     In (EvLogf WarnLevel (status_line u r) [])
        (trace (request W url timeout insecure filePath skipErrors))).
Proof.
  intros Hans Hcode. rewrite <- accepted_spec in Hcode.
  apply not_true_is_false in Hcode.
  destruct (Body r) as [body|e] eqn:Hbody.
  - destruct (request_rejected W url timeout insecure skipErrors filePath u r
                body Hans Hbody Hcode) as [rq Hreq].
    rewrite Hreq. unfold Leaked. cbn [trace result fst snd]. repeat split.
    + intros [H | [H | []]]; discriminate.
    + destruct H as [<- | [<- | []]]; reflexivity.
    + destruct H as [<- | [<- | []]]; reflexivity.
    + right. now left.
  - destruct Hans as [Hjoin [rq [Hnew Hdo]]].
    unfold request. rewrite Hjoin. cbn [lift bind app]. rewrite Hnew.
    cbn [lift bind app tell]. rewrite Hdo, Hbody.
    unfold Leaked. cbn [lift bind app trace result fst snd]. repeat split.
    + intros [H | []]; discriminate.
    + destruct H as [<- | []]; reflexivity.
    + destruct H as [<- | []]; reflexivity.
    + discriminate.
    + discriminate.
Qed.

Lemma request_other_status_skips_evaluator_witness :
  result (request world_C base_url 3 false "notes.txt" false) = Ok tt /\
  In (EvLogf WarnLevel
        "request: https://example.com/site/notes.txt 500 Internal Server Error" [])
     (trace (request world_C base_url 3 false "notes.txt" false)).
Proof.
  refine (proj2 (proj2
    (request_other_status_skips_evaluator world_C base_url 3 false false
       "notes.txt" "https://example.com/site/notes.txt"
       (mkResponse "500 Internal Server Error" 500
                   (Ok "secret-token-A secret-token-B")) _ _))
    "secret-token-A secret-token-B" eq_refl).
  - split; [reflexivity | eexists; split; reflexivity].
  - cbn. intros [H | [H | H]]; discriminate.
Defined.

(** C7: with an accepted status, an empty fingerprint and a body that is
    not empty, request returns nil without a single call of strings.Index
    and without reporting the file. *)
Theorem request_empty_fingerprint_not_leaked
        (W : World) (url : string) (timeout : Z) (insecure skipErrors : bool)
        (filePath u : string) (r : Response) (body : string) :
  answered W url timeout insecure filePath u r ->
  Body r = Ok body ->
  StatusCode r = 200 \/ StatusCode r = 404 \/ StatusCode r = 403 ->
  result (getFileHead W filePath) = Ok [] ->
  body <> "" ->
  result (request W url timeout insecure filePath skipErrors) = Ok tt /\
  ~ Leaked filePath (request W url timeout insecure filePath skipErrors) /\
  compared (trace (request W url timeout insecure filePath skipErrors)) = [].
Proof.
  intros Hans Hbody Hcode Hhead Hne. apply accepted_spec in Hcode.
  assert (0 < len body) as Hlen
      by (destruct body; [congruence | unfold len; cbn [String.length]; lia]).
  destruct (request_guard W url timeout insecure skipErrors filePath u r body
              Hans Hbody [] Hcode Hhead eq_refl Hlen) as [rq Hreq].
  rewrite Hreq. unfold Leaked. cbn [trace result fst snd]. repeat split.
  intros [H | [H | [H | []]]]; discriminate.
Qed.

Lemma request_empty_fingerprint_not_leaked_witness :
  result (request world_E base_url 3 false "empty.txt" false) = Ok tt /\
  ~ Leaked "empty.txt" (request world_E base_url 3 false "empty.txt" false) /\
  compared (trace (request world_E base_url 3 false "empty.txt" false)) = [].
Proof.
  refine (request_empty_fingerprint_not_leaked world_E base_url 3 false false
       "empty.txt" "https://example.com/site/empty.txt"
       (mkResponse "200 OK" 200 (Ok "hello world")) "hello world" _ _ _ _ _).
  - split; [reflexivity | eexists; split; reflexivity].
  - reflexivity.
  - left; reflexivity.
  - reflexivity.
  - discriminate.
Defined.

(** C10: with an accepted status, an empty fingerprint and an empty body,
    the guard of line 153 does not fire, the loop has nothing to test, and
    request reports the file as published. *)
Theorem request_empty_file_empty_body_leaked
        (W : World) (url : string) (timeout : Z) (insecure skipErrors : bool)
        (filePath u : string) (r : Response) :
  answered W url timeout insecure filePath u r ->
  Body r = Ok "" ->
  StatusCode r = 200 \/ StatusCode r = 404 \/ StatusCode r = 403 ->
  result (getFileHead W filePath) = Ok [] ->
  Leaked filePath (request W url timeout insecure filePath skipErrors) /\
  result (request W url timeout insecure filePath skipErrors) = Ok tt /\
  compared (trace (request W url timeout insecure filePath skipErrors)) = [].
Proof.
  intros Hans Hbody Hcode Hhead. apply accepted_spec in Hcode.
  destruct (request_all_found W url timeout insecure skipErrors filePath u r ""
              Hans Hbody [] Hcode Hhead (or_intror eq_refl) (Forall_nil _))
    as [rq Hreq].
  rewrite Hreq. unfold Leaked. cbn [trace result fst snd map app].
  repeat split. right. right. right. now left.
Qed.

Lemma request_empty_file_empty_body_leaked_witness :
  Leaked "empty.txt" (request world_empty base_url 3 false "empty.txt" false).
Proof.
  refine (proj1
    (request_empty_file_empty_body_leaked world_empty base_url 3 false false
       "empty.txt" "https://example.com/site/empty.txt"
       (mkResponse "404 Not Found" 404 (Ok "")) _ _ _ _)).
  - split; [reflexivity | eexists; split; reflexivity].
  - reflexivity.
  - right; left; reflexivity.
  - reflexivity.
Defined.

(** ** Local head reader *)


Lemma strip_last_incl (ps : list string) (x : string) :
  In x (strip_last ps) -> In x ps.
Proof.
  induction ps as [|p ps IH]; [tauto|].
  destruct ps as [|q ps].
  - cbn. destruct (String.eqb p ""); cbn; tauto.
  - change (strip_last (p :: q :: ps)) with (p :: strip_last (q :: ps)).
    intros [-> | H]; [now left | right; now apply IH].
Qed.





(** A file of twelve lines, with CR LF line ends: eleven come back. *)
Example getFileHead_twelve_lines :
  let line := "x" +++ String CR nl in
  let text := line +++ line +++ line +++ line +++ line +++ line +++
              line +++ line +++ line +++ line +++ line +++ line in
  result (getFileHead (table_world [] [("f", text_file text)]) "f") =
  Ok ["x"; "x"; "x"; "x"; "x"; "x"; "x"; "x"; "x"; "x"; "x"].
Proof. reflexivity. Qed.

(** A first line that outgrows the buffer stops the scanner with
    ErrTooLong, and getFileHead still returns no error. *)
Lemma getFileHead_oversized_first_line
      (W : World) (path : string) (fp : File) (l : string) (rest : list string) :
  os_Open W path = Ok fp ->
  text_lines (data fp) = l :: rest ->
  MaxScanTokenSize <= len l ->
  getFileHead W path = ([EvOpen path], Ok []).
Proof.
  intros Hopen Hl Hlen. rewrite (getFileHead_spec W path fp Hopen), Hl.
  cbn [head_lines]. replace (len l <? MaxScanTokenSize) with false by lia.
  reflexivity.
Qed.

(** C9 (the code departs from the claim): for a file that is one line of
    65536 bytes the scanner stops with ErrTooLong, and getFileHead drops
    that error: it returns an empty fingerprint and a nil error. *)
Theorem getFileHead_long_line_returns_no_error :
  Scan (Buffer (NewScanner (mkFile long_line None))
               initScanTokenSize MaxScanTokenSize) = Stop (Some ErrTooLong) /\
  getFileHead world_long "big.bin" = ([EvOpen "big.bin"], Ok []).
Proof. split; vm_compute; reflexivity. Qed.

(** ** Path source and dispatcher *)

(** C5 (amended): whenever Run comes to the return of eg.Wait(), the
    probes that were started are, in input order, exactly the pieces of the
    input between newlines that are not the empty string: one probe per
    such line, none for an empty line; a line of white space is not empty
    and is probed.  With room for at least one token the run can always
    come that far. *)
Theorem Run_probes_every_nonempty_line (W : World) (cfg : Config) (body : string) :
  (forall s,
      steps (concurrency cfg) skip_line (probe_of W cfg) (init (Split body NL)) s ->
      finished s ->
      started s = filter (fun l => negb (String.eqb l "")) (Split body NL) /\
      length (started s) =
      length (filter (fun l => negb (String.eqb l "")) (Split body NL)) /\
      ~ In "" (started s)) /\
  (1 <= concurrency cfg ->
   exists s,
     steps (concurrency cfg) skip_line (probe_of W cfg) (init (Split body NL)) s /\
     finished s).
Proof.
  split.
  - intros s Hsteps Hfin.
    destruct (finished_run _ _ _ _ _ Hsteps Hfin) as [Hst _].
    rewrite wanted_skip_line in Hst. rewrite Hst. repeat split.
    intros Hin. apply filter_In in Hin as [_ Hin]. discriminate.
  - intros Hcap. apply (run_to_completion _ _ _ _ Hcap None []).
Qed.

Lemma Run_probes_every_nonempty_line_witness :
  exists s,
    steps 5 skip_line (probe_of world_A (demo_cfg 5))
          (init (Split ("notes.txt" +++ nl +++ nl) NL)) s /\
    finished s.
Proof.
  refine (proj2 (Run_probes_every_nonempty_line world_A (demo_cfg 5)
                   ("notes.txt" +++ nl +++ nl)) _).
  cbn. lia.
Defined.

(** Without room for a token the first send blocks for ever: no probe
    starts. *)
Lemma zero_concurrency_starts_nothing
      (cap : Z) (skip : string -> bool) (probe : string -> Result unit)
      (lines : list string) (s : RunState) :
  cap <= 0 ->
  steps cap skip probe (init lines) s ->
  started s = [] /\ tasks s = [] /\ sending s = None /\ chan_len s = 0.
Proof.
  intros Hcap H. remember (init lines) as s0 eqn:E.
  induction H as [|s1 s2 s3 _ IH Hstep]; subst; [now cbn|].
  destruct (IH eq_refl) as [Hst [Ht [Hs Hn]]].
  destruct Hstep; cbn in *; subst; try discriminate; try lia; auto;
    try (now destruct t1).
Qed.

(** C5 as stated fails: the input that is one blank holds no line that is
    not white space, and yet every complete run on it starts one probe. *)
Lemma whitespace_line_is_probed :
  spec_paths " " = [] /\
  (exists s,
      steps 5 skip_line (probe_of world_A (demo_cfg 5)) (init (Split " " NL)) s /\
      finished s) /\
  (forall s,
      steps 5 skip_line (probe_of world_A (demo_cfg 5)) (init (Split " " NL)) s ->
      finished s ->
      started s = [" "] /\ length (started s) <> length (spec_paths " ")).
Proof.
  split; [reflexivity|]. split.
  - apply (run_to_completion 5 skip_line _ _ ltac:(lia) None []).
  - intros s Hsteps Hfin.
    destruct (finished_run _ _ _ _ _ Hsteps Hfin) as [Hst _].
    rewrite Hst. cbn. split; [reflexivity | discriminate].
Qed.

(** C6: in every state a run can reach, the number of probes in flight is
    at most the configured concurrency; the channel holds one token per
    probe in flight (plus the one just sent for the probe about to start),
    so a token is taken before a probe starts; and a worker whose request
    has returned, with whatever result, can always give its token back. *)
Theorem in_flight_at_most_concurrency
        (W : World) (cfg : Config) (body : string) (s : RunState) :
  0 <= concurrency cfg ->
  steps (concurrency cfg) skip_line (probe_of W cfg) (init (Split body NL)) s ->
  in_flight s <= concurrency cfg /\
  chan_len s = in_flight s + sending_count s /\
  (forall t1 l r t2,
      tasks s = t1 ++ Returned l r :: t2 ->
      exists s',
        step (concurrency cfg) skip_line (probe_of W cfg) s s' /\
        chan_len s' = chan_len s - 1 /\
        tasks s' = t1 ++ Reporting l r :: t2).
Proof.
  intros Hcap Hsteps.
  pose proof (token_inv_steps _ _ _ _ _ Hcap Hsteps) as Hinv.
  destruct Hinv as [Heq Hle]. repeat split.
  - assert (0 <= sending_count s)
      by (unfold sending_count; destruct (sending s); lia).
    lia.
  - exact Heq.
  - intros t1 l r t2 Ht. eexists. split.
    + apply (release_enabled _ _ _ s t1 t2 l r (conj Heq Hle) Ht).
    + split; reflexivity.
Qed.

Lemma in_flight_at_most_concurrency_witness :
  in_flight (mkRunState ["other.txt"] None 1 [Requesting "notes.txt"] None
                        ["notes.txt"]) <= 1.
Proof.
  refine (proj1
    (in_flight_at_most_concurrency world_A (demo_cfg 1)
       ("notes.txt" +++ nl +++ "other.txt")
       (mkRunState ["other.txt"] None 1 [Requesting "notes.txt"] None ["notes.txt"])
       _ _)).
  - cbn. lia.
  - eapply steps_more.
    + eapply steps_more; [apply steps_refl|].
      apply (step_send 1 skip_line _ "notes.txt" ["other.txt"] 0 [] None []);
        [reflexivity | lia].
    + apply (step_go 1 skip_line _ "notes.txt" ["other.txt"] (0 + 1) [] None []).
Defined.

(** X17: the loop of cli.go keeps the same bound: in every state a run
    reaches, the probes in flight are at most the configured concurrency. *)
Lemma Legacy_token_bound
      (W : World) (cfg : Config) (body : string) (s : RunState) :
  0 <= concurrency cfg ->
  steps (concurrency cfg) Legacy.skip_line (Legacy.probe_of W cfg)
        (init (Split body NL)) s ->
  in_flight s <= concurrency cfg.
Proof.
  intros Hcap Hsteps.
  destruct (token_inv_steps _ _ _ _ _ Hcap Hsteps) as [Heq Hle].
  unfold sending_count in Heq. destruct (sending s); lia.
Qed.

(** X16: the loop of cli.go has no test for empty lines: when a run comes
    to the return of eg.Wait(), one probe was started for every piece of
    the input between newlines, in input order, the empty pieces included
    (so even the empty input starts one probe, for the empty path). *)
Lemma Legacy_probes_every_line
      (W : World) (cfg : Config) (body : string) (s : RunState) :
  steps (concurrency cfg) Legacy.skip_line (Legacy.probe_of W cfg)
        (init (Split body NL)) s ->
  finished s ->
  started s = Split body NL.
Proof.
  intros Hsteps Hfin.
  destruct (finished_run _ _ _ _ _ Hsteps Hfin) as [Hst _].
  rewrite Hst. unfold wanted, Legacy.skip_line. cbn [negb].
  clear. generalize (Split body NL) as ls.
  induction ls as [|x xs IH]; cbn; [reflexivity | now rewrite IH].
Qed.

(** ** Errors of a single probe *)

Lemma nonempty_lines_started (W : World) (cfg : Config) (body : string) (s : RunState) :
  steps (concurrency cfg) skip_line (probe_of W cfg) (init (Split body NL)) s ->
  finished s ->
  started s = filter (fun l => negb (String.eqb l "")) (Split body NL).
Proof.
  intros Hsteps Hfin.
  destruct (finished_run _ _ _ _ _ Hsteps Hfin) as [Hst _].
  now rewrite wanted_skip_line in Hst.
Qed.

(** C3 (amended): when a probe is answered with an accepted status and its
    local file does not open, request returns the error of os.Open after
    logging nothing but the request line; the run still probes every
    non-empty line and comes to the return of eg.Wait(), and then it ends
    in logrus.Fatal with the error of a failed probe: the failure is not
    kept inside the probe. *)
Theorem unreadable_file_fails_the_run
        (W : World) (cfg : Config) (body filePath u : string) (r : Response)
        (rbody : string) (e : error) :
  version cfg = false ->
  1 <= concurrency cfg ->
  In filePath (Split body NL) ->
  filePath <> "" ->
  answered W (url cfg) (timeout cfg) (insecure cfg) filePath u r ->
  Body r = Ok rbody ->
  StatusCode r = 200 \/ StatusCode r = 404 \/ StatusCode r = 403 ->
  os_Open W filePath = Err e ->
  (exists rq,
      request W (url cfg) (timeout cfg) (insecure cfg) filePath (skipErrors cfg) =
      ([EvDo (insecure cfg) (timeout cfg) rq;
        EvLogf InfoLevel (status_line u r) []; EvOpen filePath], Err e)) /\
  (exists o, Run W cfg (Ok body) o) /\
  (forall o, Run W cfg (Ok body) o ->
             exists e' l', o = Fatal e' /\ In l' (Split body NL) /\
                           probe_of W cfg l' = Err e') /\
  (forall s,
      steps (concurrency cfg) skip_line (probe_of W cfg) (init (Split body NL)) s ->
      finished s ->
      started s = filter (fun l => negb (String.eqb l "")) (Split body NL)).
Proof.
  intros Hv Hc Hin Hne Hans Hbody Hcode Hopen. apply accepted_spec in Hcode.
  destruct (request_open_fails W (url cfg) (timeout cfg) (insecure cfg)
              (skipErrors cfg) filePath u r rbody Hans Hbody e Hcode Hopen)
    as [rq Hreq].
  split; [exists rq; exact Hreq|].
  split; [now apply Run_total|].
  split; [|apply nonempty_lines_started].
  intros o Hrun.
  apply (failing_probe_is_fatal W cfg body filePath e o); auto; try lia.
  unfold probe_of. now rewrite Hreq.
Qed.

Lemma unreadable_file_fails_the_run_witness :
  exists o, Run world_D (skip_cfg 5) (Ok "missing.txt") o.
Proof.
  refine (proj1 (proj2
    (unreadable_file_fails_the_run world_D (skip_cfg 5) "missing.txt"
       "missing.txt" "https://example.com/site/missing.txt"
       (mkResponse "404 Not Found" 404 (Ok "not found")) "not found"
       (PathError "missing.txt") _ _ _ _ _ _ _ _))).
  - reflexivity.
  - cbn. lia.
  - left. reflexivity.
  - discriminate.
  - split; [reflexivity | eexists; split; reflexivity].
  - reflexivity.
  - right. left. reflexivity.
  - reflexivity.
Defined.

(** C3 as stated fails: one path whose file is missing, the skip-errors
    flag set, and the only way the run can end is logrus.Fatal with the
    error of os.Open. *)
Lemma missing_file_ends_in_fatal :
  Run world_D (skip_cfg 5) (Ok "missing.txt") (Fatal (PathError "missing.txt")) /\
  (forall o, Run world_D (skip_cfg 5) (Ok "missing.txt") o ->
             o = Fatal (PathError "missing.txt")).
Proof.
  assert (forall o, Run world_D (skip_cfg 5) (Ok "missing.txt") o ->
                    o = Fatal (PathError "missing.txt")) as Honly.
  { intros o Hrun.
    destruct (failing_probe_is_fatal world_D (skip_cfg 5) "missing.txt"
                "missing.txt" (PathError "missing.txt") o)
      as [e' [l' [-> [Hl' Hp]]]];
      [reflexivity | cbn; lia | now left | discriminate | reflexivity | exact Hrun |].
    destruct Hl' as [<- | []]. vm_compute in Hp. congruence. }
  split; [|exact Honly].
  destruct (Run_total world_D (skip_cfg 5) "missing.txt") as [o Ho];
    [reflexivity | cbn; lia |].
  now rewrite <- (Honly o Ho).
Qed.

Lemma urlJoin_fails (W : World) (base path : string) :
  is_err (url_Parse W path) = true \/ is_err (url_Parse W base) = true ->
  exists e, urlJoin W base path = Err e.
Proof.
  unfold urlJoin. intros [H | H].
  - destruct (url_Parse W path); [discriminate | eauto].
  - destruct (url_Parse W path); [|eauto].
    destruct (url_Parse W base); [discriminate | eauto].
Qed.

(** C4 (amended): when the path or the base URL of a probe does not parse,
    request returns that error at once, before any network or file access
    and without a log line; the run still probes every non-empty line and
    comes to the return of eg.Wait(), and then it ends in logrus.Fatal
    with the error of a failed probe: the failure is fatal to the run. *)
Theorem invalid_url_fails_the_run
        (W : World) (cfg : Config) (body filePath : string) :
  version cfg = false ->
  1 <= concurrency cfg ->
  In filePath (Split body NL) ->
  filePath <> "" ->
  is_err (url_Parse W filePath) = true \/ is_err (url_Parse W (url cfg)) = true ->
  (exists e,
      request W (url cfg) (timeout cfg) (insecure cfg) filePath (skipErrors cfg) =
      ([], Err e)) /\
  (exists o, Run W cfg (Ok body) o) /\
  (forall o, Run W cfg (Ok body) o ->
             exists e' l', o = Fatal e' /\ In l' (Split body NL) /\
                           probe_of W cfg l' = Err e') /\
  (forall s,
      steps (concurrency cfg) skip_line (probe_of W cfg) (init (Split body NL)) s ->
      finished s ->
      started s = filter (fun l => negb (String.eqb l "")) (Split body NL)).
Proof.
  intros Hv Hc Hin Hne Hparse.
  destruct (urlJoin_fails W (url cfg) filePath Hparse) as [e He].
  assert (request W (url cfg) (timeout cfg) (insecure cfg) filePath (skipErrors cfg)
          = ([], Err e)) as Hreq
      by (unfold request; rewrite He; reflexivity).
  split; [exists e; exact Hreq|].
  split; [now apply Run_total|].
  split; [|apply nonempty_lines_started].
  intros o Hrun.
  apply (failing_probe_is_fatal W cfg body filePath e o); auto; try lia.
  unfold probe_of. now rewrite Hreq.
Qed.

Lemma invalid_url_fails_the_run_witness :
  exists o, Run world_A (skip_cfg 5) (Ok (crlf_path +++ nl +++ "notes.txt")) o.
Proof.
  refine (proj1 (proj2
    (invalid_url_fails_the_run world_A (skip_cfg 5)
       (crlf_path +++ nl +++ "notes.txt") crlf_path _ _ _ _ _))).
  - reflexivity.
  - cbn. lia.
  - left. reflexivity.
  - discriminate.
  - left. reflexivity.
Defined.

(** C4 as stated fails: two paths, the first with a carriage return that
    url.Parse refuses, the second one fine, the skip-errors flag set, and
    the only way the run can end is logrus.Fatal with the parse error. *)
Lemma invalid_path_ends_in_fatal :
  Run world_A (skip_cfg 5) (Ok (crlf_path +++ nl +++ "notes.txt"))
      (Fatal (UrlError crlf_path)) /\
  (forall o, Run world_A (skip_cfg 5) (Ok (crlf_path +++ nl +++ "notes.txt")) o ->
             o = Fatal (UrlError crlf_path)).
Proof.
  assert (forall o,
             Run world_A (skip_cfg 5) (Ok (crlf_path +++ nl +++ "notes.txt")) o ->
             o = Fatal (UrlError crlf_path)) as Honly.
  { intros o Hrun.
    destruct (failing_probe_is_fatal world_A (skip_cfg 5)
                (crlf_path +++ nl +++ "notes.txt") crlf_path
                (UrlError crlf_path) o)
      as [e' [l' [-> [Hl' Hp]]]];
      [reflexivity | cbn; lia | now left | discriminate | reflexivity | exact Hrun |].
    destruct Hl' as [<- | [<- | []]]; vm_compute in Hp; [|discriminate].
    injection Hp as <-. reflexivity. }
  split; [|exact Honly].
  destruct (Run_total world_A (skip_cfg 5) (crlf_path +++ nl +++ "notes.txt"))
    as [o Ho]; [reflexivity | cbn; lia |].
  now rewrite <- (Honly o Ho).
Qed.

(** ** The scenarios of the specification, on the current revision *)

Example scenario_A_leaked :
  request world_A base_url 3 false "notes.txt" false =
  ([EvDo false 3 (mkRequest "GET" "https://example.com/site/notes.txt"
                            "PyamaMultiRequest/0.0.1");
    EvLogf InfoLevel "request: https://example.com/site/notes.txt 200 OK" [];
    EvOpen "notes.txt";
    EvIndex "x secret-token-B y secret-token-A z" "secret-token-A";
    EvIndex "x secret-token-B y secret-token-A z" "secret-token-B";
    published "notes.txt"], Ok tt).
Proof. reflexivity. Qed.

Example scenario_B_not_leaked :
  request world_B base_url 3 false "notes.txt" false =
  ([EvDo false 3 (mkRequest "GET" "https://example.com/site/notes.txt"
                            "PyamaMultiRequest/0.0.1");
    EvLogf InfoLevel "request: https://example.com/site/notes.txt 200 OK" [];
    EvOpen "notes.txt";
    EvIndex "only secret-token-A here" "secret-token-A";
    EvIndex "only secret-token-A here" "secret-token-B"], Ok tt).
Proof. reflexivity. Qed.

Example scenario_C_status_500 :
  request world_C base_url 3 false "notes.txt" false =
  ([EvDo false 3 (mkRequest "GET" "https://example.com/site/notes.txt"
                            "PyamaMultiRequest/0.0.1");
    EvLogf WarnLevel
      "request: https://example.com/site/notes.txt 500 Internal Server Error" []],
   Ok tt).
Proof. reflexivity. Qed.

Example scenario_D_missing_file :
  result (request world_D base_url 3 false "missing.txt" false) =
  Err (PathError "missing.txt").
Proof. reflexivity. Qed.

Example scenario_E_empty_file :
  request world_E base_url 3 false "empty.txt" false =
  ([EvDo false 3 (mkRequest "GET" "https://example.com/site/empty.txt"
                            "PyamaMultiRequest/0.0.1");
    EvLogf InfoLevel "request: https://example.com/site/empty.txt 200 OK" [];
    EvOpen "empty.txt"], Ok tt).
Proof. reflexivity. Qed.

(** A transport error is skipped only when the flag is set. *)
Example transport_error_skipped :
  request world_A base_url 3 false "elsewhere.txt" true =
  ([EvDo false 3 (mkRequest "GET" "https://example.com/site/elsewhere.txt"
                            "PyamaMultiRequest/0.0.1");
    EvLogError (TransportError "https://example.com/site/elsewhere.txt")], Ok tt) /\
  result (request world_A base_url 3 false "elsewhere.txt" false) =
  Err (TransportError "https://example.com/site/elsewhere.txt").
Proof. split; reflexivity. Qed.

(** ** The earlier revision *)

(** getFileHead of cli.go is total on a file that opens and returns at most
    11 strings. *)
Lemma Legacy_read_lines_bound (fuel : nat) :
  forall (rd : Legacy.Reader) (line : string) (failed : bool)
         (lines : list string) (cnt : Z),
    cnt = Z.of_nat (length lines) ->
    0 <= cnt <= 10 ->
    ((if failed then 1 else String.length (Legacy.rd_unread rd) + 2) <= fuel)%nat ->
    exists ls,
      Legacy.read_lines fuel rd line failed lines cnt = Some ls /\
      (length ls <= 11)%nat.
Proof.
  induction fuel as [|fuel IH]; intros rd line failed lines cnt Hcnt Hr Hfuel.
  - destruct failed; lia.
  - cbn [Legacy.read_lines]. destruct failed.
    + exists lines. split; [reflexivity | lia].
    + destruct (cnt + 1 >? 10) eqn:Hc.
      * exists (lines ++ [line]). split; [reflexivity|].
        rewrite length_app. cbn. lia.
      * unfold Legacy.ReadString, IndexByte.
        destruct (index_byte_Split (Legacy.rd_unread rd) 0)
          as [[Hi _] | [k [Hi [Hk _]]]]; rewrite Hi.
        -- change (0 <=? -1) with false. cbv iota.
           apply IH; [rewrite length_app; cbn; lia | lia | lia].
        -- replace (0 <=? 0 + Z.of_nat k) with true by lia. cbv iota.
           apply IH; [rewrite length_app; cbn; lia | lia |].
           cbn [Legacy.rd_unread].
           replace (Z.to_nat (0 + Z.of_nat k)) with k by lia.
           rewrite length_drop; lia.
Qed.

Lemma Legacy_getFileHead_at_most_11 (W : World) (path : string) (fp : File) :
  os_Open W path = Ok fp ->
  exists lines,
    Legacy.getFileHead W path = ([EvOpen path], Ok lines) /\
    (length lines <= 11)%nat.
Proof.
  intros Hopen. unfold Legacy.getFileHead. rewrite Hopen.
  destruct (Legacy_read_lines_bound (S (S (String.length (data fp))))
              (Legacy.mkReader (data fp) (read_err fp)) "" false [] 0)
    as [ls [Hls Hlen]]; [reflexivity | lia | cbn; lia |].
  cbn [lift tell bind app]. rewrite Hls. exists ls. split; [reflexivity | exact Hlen].
Qed.

(** Its lines start with the empty string of the loop's first round and
    keep their newline, so they are found only in a body that holds the
    newlines too. *)
Example Legacy_getFileHead_keeps_newlines :
  Legacy.getFileHead world_A "notes.txt" =
  ([EvOpen "notes.txt"],
   Ok [""; "secret-token-A" +++ nl; "secret-token-B" +++ nl]).
Proof. reflexivity. Qed.

(** Only status 200 reaches the comparison there. *)
Example Legacy_request_404_not_compared :
  Legacy.request world_empty base_url 3 false "empty.txt" =
  ([EvDo false 3 (mkRequest "GET" "https://example.com/site/empty.txt"
                            "Go-http-client/1.1");
    EvLogf InfoLevel "request: %s %s"
           ["https://example.com/site/empty.txt"; "404 Not Found"]], Ok tt).
Proof. reflexivity. Qed.

(** * Further properties of the current revision *)

(** ** request *)

(** The loop never fails: it ends with a verdict. *)
Lemma all_found_verdict (body : string) (lines : list string) :
  exists t b, all_found body lines = (t, Ok b).
Proof.
  destruct (first_missing body lines) as [Hall | [pre [l [post [E [Hpre Hl]]]]]].
  - rewrite (all_found_all body lines Hall). eauto.
  - rewrite E, (all_found_stop body pre l post Hpre Hl). eauto.
Qed.

(** X1: when client.Do fails, request has sent its one request and does
    nothing more: with skip-errors it logs the error and returns nil,
    without skip-errors it returns the error unlogged; either way the local
    file is not opened. *)
Theorem request_transport_error
        (W : World) (url : string) (timeout : Z) (insecure skipErrors : bool)
        (filePath u : string) (rq : Request) (e : error) :
  urlJoin W url filePath = Ok u ->
  http_NewRequest W "GET" u = Ok rq ->
  client_Do W insecure timeout
    (mkRequest (req_method rq) (req_url rq)
               ("PyamaMultiRequest" +++ "/" +++ Version W)) = Err e ->
  request W url timeout insecure filePath skipErrors =
  (EvDo insecure timeout
        (mkRequest (req_method rq) (req_url rq)
                   ("PyamaMultiRequest" +++ "/" +++ Version W))
   :: (if skipErrors then [EvLogError e] else []),
   if skipErrors then Ok tt else Err e).
Proof.
  intros Hjoin Hnew Hdo. unfold request. rewrite Hjoin. cbn [lift bind app].
  rewrite Hnew. cbn [lift bind app tell]. rewrite Hdo.
  destruct skipErrors; reflexivity.
Qed.

Lemma request_transport_error_witness :
  request world_A base_url 3 false "elsewhere.txt" true =
  (EvDo false 3 (mkRequest "GET" "https://example.com/site/elsewhere.txt"
                           ("PyamaMultiRequest" +++ "/" +++ Version world_A))
   :: [EvLogError (TransportError "https://example.com/site/elsewhere.txt")],
   Ok tt).
Proof.
  exact (request_transport_error world_A base_url 3 false true "elsewhere.txt"
           "https://example.com/site/elsewhere.txt"
           (mkRequest "GET" "https://example.com/site/elsewhere.txt" "")
           (TransportError "https://example.com/site/elsewhere.txt")
           eq_refl eq_refl eq_refl).
Defined.

(** X2: when reading the body of an answer fails, request returns that
    error whatever the status and whatever skip-errors says, before it logs
    the request line and without opening the local file. *)
Theorem request_body_error
        (W : World) (url : string) (timeout : Z) (insecure skipErrors : bool)
        (filePath u : string) (r : Response) (e : error) :
  answered W url timeout insecure filePath u r ->
  Body r = Err e ->
  exists rq,
    request W url timeout insecure filePath skipErrors =
    ([EvDo insecure timeout rq], Err e).
Proof.
  intros [Hjoin [rq [Hnew Hdo]]] Hbody.
  unfold request. rewrite Hjoin. cbn [lift bind app].
  rewrite Hnew. cbn [lift bind app tell]. rewrite Hdo, Hbody.
  eexists. reflexivity.
Qed.

Lemma request_body_error_witness :
  exists rq,
    request (table_world
               [("https://example.com/site/notes.txt",
                 Ok (mkResponse "200 OK" 200
                       (Err (BodyError "https://example.com/site/notes.txt"))))]
               [])
            base_url 3 false "notes.txt" true =
    ([EvDo false 3 rq], Err (BodyError "https://example.com/site/notes.txt")).
Proof.
  refine (request_body_error _ base_url 3 false true "notes.txt"
            "https://example.com/site/notes.txt"
            (mkResponse "200 OK" 200
               (Err (BodyError "https://example.com/site/notes.txt")))
            (BodyError "https://example.com/site/notes.txt") _ eq_refl).
  split; [reflexivity | eexists; split; reflexivity].
Defined.

(** X3: request touches the local file and searches the body only for an
    answer it accepted: if its trace holds an os.Open or a strings.Index
    event, then the URL was built, the server answered with status 200, 404
    or 403, and the body was read; and the file opened is the probe's own. *)
Theorem request_opens_only_after_accepted_answer
        (W : World) (url : string) (timeout : Z) (insecure skipErrors : bool)
        (filePath : string) (ev : Event) :
  In ev (trace (request W url timeout insecure filePath skipErrors)) ->
  is_open ev = true \/ is_index ev = true ->
  (is_open ev = true -> ev = EvOpen filePath) /\
  exists u r body,
    answered W url timeout insecure filePath u r /\
    Body r = Ok body /\
    (StatusCode r = 200 \/ StatusCode r = 404 \/ StatusCode r = 403) /\
    (is_index ev = true -> exists l, ev = EvIndex body l).
Proof.
  unfold request.
  destruct (urlJoin W url filePath) as [u|e0] eqn:Hjoin; cbn [lift bind app];
    [|intros []].
  destruct (http_NewRequest W "GET" u) as [rq|e0] eqn:Hnew;
    cbn [lift bind app tell]; [|intros []].
  destruct (client_Do W insecure timeout _) as [r|e0] eqn:Hdo.
  2: { destruct skipErrors; cbn; intros Hin Hev;
       repeat (destruct Hin as [<- | Hin]; [destruct Hev; discriminate|]);
       destruct Hin. }
  destruct (Body r) as [body|e0] eqn:Hbody; cbn [lift bind app].
  2: { cbn. intros [<- | []] Hev. destruct Hev; discriminate. }
  destruct (accepted (StatusCode r)) eqn:Hst; cbn [negb].
  2: { cbn. intros [<- | [<- | []]] Hev; destruct Hev; discriminate. }
  rewrite (getFileHead_trace W filePath).
  assert (answered W url timeout insecure filePath u r) as Hans
      by (split; [exact Hjoin | exists rq; split; [exact Hnew | exact Hdo]]).
  apply accepted_spec in Hst.
  intros Hin Hev.
  assert (ev = EvOpen filePath \/ exists l, ev = EvIndex body l) as Hcase.
  { destruct (result (getFileHead W filePath)) as [lines|e0].
    - cbn [Infof Warnf tell bind app ret] in Hin.
      destruct ((Z.of_nat (length lines) =? 0) && (len body >? 0)).
      + cbn in Hin. destruct Hin as [<- | [<- | [<- | []]]];
          try (destruct Hev; discriminate). now left.
      + destruct (all_found_verdict body lines) as [t [b Hb]].
        assert (forall x, In x t -> exists l, x = EvIndex body l) as Ht.
        { clear -Hb. revert t b Hb.
          induction lines as [|l ls IH]; intros t b Hb; cbn [all_found] in Hb.
          - injection Hb as <- _. intros x [].
          - cbn [tell bind app] in Hb. destruct (Index body l <? 0).
            + cbn in Hb. injection Hb as <- _. intros x [<- | []]. eauto.
            + destruct (all_found_verdict body ls) as [t' [b' Hb']].
              rewrite Hb' in Hb. cbn in Hb. injection Hb as <- _.
              intros x [<- | Hx]; [eauto | exact (IH t' b' Hb' x Hx)]. }
        rewrite Hb in Hin. cbn [bind app] in Hin.
        destruct b; cbn in Hin.
        * destruct Hin as [<- | [<- | [<- | Hin]]];
            try (destruct Hev; discriminate); [now left|].
          apply in_app_iff in Hin as [Hin | [<- | []]];
            [right; now apply Ht | destruct Hev; discriminate].
        * destruct Hin as [<- | [<- | [<- | Hin]]];
            try (destruct Hev; discriminate); [now left|].
          rewrite app_nil_r in Hin. right; now apply Ht.
    - cbn in Hin. destruct Hin as [<- | [<- | [<- | []]]];
        try (destruct Hev; discriminate). now left. }
  split.
  - intros Ho. destruct Hcase as [-> | [l ->]]; [reflexivity | discriminate].
  - exists u, r, body.
    split; [exact Hans|]. split; [exact Hbody|]. split; [exact Hst|].
    intros Hi. destruct Hcase as [-> | Hl]; [discriminate | exact Hl].
Qed.

Lemma request_opens_only_after_accepted_answer_witness :
  exists u r body,
    answered world_A base_url 3 false "notes.txt" u r /\
    Body r = Ok body /\
    (StatusCode r = 200 \/ StatusCode r = 404 \/ StatusCode r = 403) /\
    (is_index (EvOpen "notes.txt") = true ->
     exists l, EvOpen "notes.txt" = EvIndex body l).
Proof.
  refine (proj2
    (request_opens_only_after_accepted_answer world_A base_url 3 false false
       "notes.txt" (EvOpen "notes.txt") _ _)).
  - cbn. right. right. left. reflexivity.
  - left. reflexivity.
Defined.

(** X4: request returns an error in exactly five cases: the URL does not
    build, http.NewRequest refuses it, client.Do fails while skip-errors is
    off, the body cannot be read, or the answer is accepted and the local
    file does not open.  A status that is not accepted, a missing line and
    a skipped transport error all return nil. *)
Theorem request_error_iff
        (W : World) (url : string) (timeout : Z) (insecure skipErrors : bool)
        (filePath : string) (e : error) :
  result (request W url timeout insecure filePath skipErrors) = Err e <->
  urlJoin W url filePath = Err e \/
  (exists u, urlJoin W url filePath = Ok u /\ http_NewRequest W "GET" u = Err e) \/
  (skipErrors = false /\
   exists u rq,
     urlJoin W url filePath = Ok u /\
     http_NewRequest W "GET" u = Ok rq /\
     client_Do W insecure timeout
       (mkRequest (req_method rq) (req_url rq)
                  ("PyamaMultiRequest" +++ "/" +++ Version W)) = Err e) \/
  (exists u r, answered W url timeout insecure filePath u r /\ Body r = Err e) \/
  (exists u r body,
      answered W url timeout insecure filePath u r /\
      Body r = Ok body /\
      accepted (StatusCode r) = true /\
      os_Open W filePath = Err e).
Proof.
  split.
  - unfold request.
    destruct (urlJoin W url filePath) as [u|e0] eqn:Hjoin; cbn [lift bind app];
      [|cbn; intros [= ->]; now left].
    destruct (http_NewRequest W "GET" u) as [rq|e0] eqn:Hnew;
      cbn [lift bind app tell];
      [|cbn; intros [= ->]; right; left; eauto].
    destruct (client_Do W insecure timeout _) as [r|e0] eqn:Hdo.
    2: { destruct skipErrors; cbn; intros [= ->].
         right. right. left. split; [reflexivity|]. eauto. }
    assert (answered W url timeout insecure filePath u r) as Hans
        by (split; [exact Hjoin | exists rq; split; [exact Hnew | exact Hdo]]).
    destruct (Body r) as [body|e0] eqn:Hbody; cbn [lift bind app];
      [|cbn; intros [= ->]; right; right; right; left; eauto].
    destruct (accepted (StatusCode r)) eqn:Hst; cbn [negb];
      [|cbn; discriminate].
    destruct (os_Open W filePath) as [fp|e0] eqn:Hopen.
    + rewrite (getFileHead_spec W filePath fp Hopen).
      cbn [Infof Warnf tell bind app ret].
      destruct ((Z.of_nat (length _) =? 0) && (len body >? 0));
        [cbn; discriminate|].
      destruct (all_found_verdict body
                  (head_lines 11 MaxScanTokenSize (text_lines (data fp))))
        as [t [b Hb]].
      rewrite Hb. destruct b; cbn; discriminate.
    + rewrite (getFileHead_open_fails W filePath e0 Hopen).
      cbn. intros [= ->]. right. right. right. right.
      exists u, r, body. auto.
  - intros [H | [[u [Hjoin Hnew]] | [[Hskip [u [rq [Hjoin [Hnew Hdo]]]]] |
            [[u [r [Hans Hbody]]] | [u [r [body [Hans [Hbody [Hst Hopen]]]]]]]]]].
    + unfold request. rewrite H. reflexivity.
    + unfold request. rewrite Hjoin. cbn [lift bind app]. rewrite Hnew.
      reflexivity.
    + unfold request. rewrite Hjoin. cbn [lift bind app]. rewrite Hnew.
      cbn [lift bind app tell]. rewrite Hdo, Hskip. reflexivity.
    + destruct Hans as [Hjoin [rq [Hnew Hdo]]].
      unfold request. rewrite Hjoin. cbn [lift bind app]. rewrite Hnew.
      cbn [lift bind app tell]. rewrite Hdo, Hbody. reflexivity.
    + destruct (request_open_fails W url timeout insecure skipErrors filePath
                  u r body Hans Hbody e Hst Hopen) as [rq ->]. reflexivity.
Qed.

(** ** The comparison *)

Lemma string_app_assoc (a b c : string) : (a +++ b) +++ c = a +++ b +++ c.
Proof. induction a as [|x a IH]; cbn; [reflexivity | now rewrite IH]. Qed.

Lemma Contains_trans (a b c : string) :
  Contains a b -> Contains b c -> Contains a c.
Proof.
  intros [p1 [q1 ->]] [p2 [q2 ->]]. exists (p1 +++ p2), (q2 +++ q1).
  now rewrite !string_app_assoc.
Qed.

Lemma Contains_prefix (s p t : string) : s = p +++ t -> Contains s p.
Proof. intros ->. exists "", t. reflexivity. Qed.

(** Every piece of Split stands in the text, the first one at its start. *)
Lemma Split_pieces (s : string) :
  exists x xs,
    Split s NL = x :: xs /\
    (exists post, s = x +++ post) /\
    Forall (Contains s) xs.
Proof.
  induction s as [|c s [x [xs [E [[post Hx] Hxs]]]]]; cbn [Split].
  - exists "", []. repeat split; [now exists "" | constructor].
  - assert (forall l, Contains s l -> Contains (String c s) l) as Hup
        by (intros l Hl; apply Contains_cons; now right).
    destruct (Ascii.eqb c NL).
    + exists "", (Split s NL). repeat split; [now exists (String c s)|].
      rewrite E. constructor.
      * apply Hup. eapply Contains_prefix; exact Hx.
      * eapply Forall_impl; [exact Hup | exact Hxs].
    + rewrite E. exists (String c x), xs. repeat split.
      * exists post. cbn. now rewrite <- Hx.
      * eapply Forall_impl; [exact Hup | exact Hxs].
Qed.

Lemma text_lines_in_text (s l : string) : In l (text_lines s) -> Contains s l.
Proof.
  intros H. apply strip_last_incl in H.
  destruct (Split_pieces s) as [x [xs [E [[post Hx] Hxs]]]].
  rewrite E in H. destruct H as [<- | H].
  - eapply Contains_prefix; exact Hx.
  - rewrite Forall_forall in Hxs. now apply Hxs.
Qed.

Lemma dropCR_prefix (l : string) : exists t, l = dropCR l +++ t.
Proof.
  induction l as [|a l [t IH]]; [now exists ""|].
  destruct l as [|b l].
  - cbn [dropCR]. destruct (Ascii.eqb a CR).
    + now exists (String a "").
    + now exists "".
  - change (dropCR (String a (String b l)))
      with (String a (dropCR (String b l))).
    exists t. cbn [String.append]. now rewrite <- IH.
Qed.

Lemma head_lines_from (n : nat) (max : Z) (ls : list string) (x : string) :
  In x (head_lines n max ls) ->
  exists l, In l ls /\ x = dropCR l /\ len l < max.
Proof.
  revert ls; induction n as [|n IH]; intros [|l ls]; cbn; try tauto.
  destruct (len l <? max) eqn:Hl; [|intros []].
  intros [<- | H].
  - exists l. repeat split; [now left | lia].
  - destruct (IH ls H) as [l' [Hin Hx]]. exists l'. split; [now right | exact Hx].
Qed.

(** Every line of a fingerprint stands in the file it was read from. *)
Lemma fingerprint_in_file (n : nat) (max : Z) (s : string) :
  Forall (Contains s) (head_lines n max (text_lines s)).
Proof.
  apply Forall_forall. intros x Hx.
  destruct (head_lines_from n max _ x Hx) as [l [Hl [-> _]]].
  destruct (dropCR_prefix l) as [t Ht].
  eapply Contains_trans; [apply text_lines_in_text; exact Hl|].
  eapply Contains_prefix; exact Ht.
Qed.

(** X5: no false negative on a copy.  When the answer is accepted and its
    body holds the text of the local file (the file as it is, or embedded
    in a larger page), and the first line of the file fits the scanner's
    buffer, request reports the file as published. *)
Theorem served_file_is_reported
        (W : World) (url : string) (timeout : Z) (insecure skipErrors : bool)
        (filePath u : string) (r : Response) (body : string) (fp : File)
        (l : string) (rest : list string) :
  answered W url timeout insecure filePath u r ->
  Body r = Ok body ->
  StatusCode r = 200 \/ StatusCode r = 404 \/ StatusCode r = 403 ->
  os_Open W filePath = Ok fp ->
  Contains body (data fp) ->
  text_lines (data fp) = l :: rest ->
  len l < MaxScanTokenSize ->
  Leaked filePath (request W url timeout insecure filePath skipErrors) /\
  result (request W url timeout insecure filePath skipErrors) = Ok tt.
Proof.
  intros Hans Hbody Hcode Hopen Hsub Hlines Hfit. apply accepted_spec in Hcode.
  pose proof (getFileHead_spec W filePath fp Hopen) as Hhead.
  assert (result (getFileHead W filePath) =
          Ok (head_lines 11 MaxScanTokenSize (text_lines (data fp)))) as Hres
      by (now rewrite Hhead).
  destruct (request_all_found W url timeout insecure skipErrors filePath u r
              body Hans Hbody _ Hcode Hres) as [rq Hreq].
  - left. rewrite Hlines. cbn [head_lines].
    replace (len l <? MaxScanTokenSize) with true by lia. discriminate.
  - eapply Forall_impl; [|apply fingerprint_in_file].
    intros x Hx. eapply Contains_trans; [exact Hsub | exact Hx].
  - rewrite Hreq. unfold Leaked. cbn [trace result fst snd]. split; [|reflexivity].
    apply in_app_iff. right. apply in_app_iff. right. now left.
Qed.

Lemma served_file_is_reported_witness :
  Leaked "notes.txt"
    (request (table_world
                [("https://example.com/site/notes.txt",
                  answer 200 "200 OK"
                    ("<pre>" +++ "secret-token-A" +++ nl +++ "secret-token-B" +++ nl
                     +++ "</pre>"))]
                [("notes.txt",
                  text_file ("secret-token-A" +++ nl +++ "secret-token-B" +++ nl))])
             base_url 3 false "notes.txt" false).
Proof.
  refine (proj1
    (served_file_is_reported _ base_url 3 false false "notes.txt"
       "https://example.com/site/notes.txt"
       (mkResponse "200 OK" 200
          (Ok ("<pre>" +++ "secret-token-A" +++ nl +++ "secret-token-B" +++ nl
               +++ "</pre>")))
       ("<pre>" +++ "secret-token-A" +++ nl +++ "secret-token-B" +++ nl +++ "</pre>")
       (mkFile ("secret-token-A" +++ nl +++ "secret-token-B" +++ nl) None)
       "secret-token-A" ["secret-token-B"] _ _ _ _ _ _ _)).
  - split; [reflexivity | eexists; split; reflexivity].
  - reflexivity.
  - left; reflexivity.
  - reflexivity.
  - exists "<pre>", "</pre>". reflexivity.
  - reflexivity.
  - vm_compute. reflexivity.
Defined.

Lemma all_found_true_iff (body : string) (lines : list string) :
  result (all_found body lines) = Ok true <-> Forall (Contains body) lines.
Proof.
  destruct (first_missing body lines) as [Hall | [pre [l [post [E [Hpre Hl]]]]]].
  - rewrite (all_found_all body lines Hall). cbn. tauto.
  - rewrite E at 1. rewrite (all_found_stop body pre l post Hpre Hl). cbn.
    split; [discriminate|]. intros Hall. rewrite E in Hall.
    apply Forall_app in Hall as [_ Hall]. inversion Hall; contradiction.
Qed.

(** X6: the verdict of the comparison loop depends on the set of lines
    only: when the loop finds every line of a fingerprint, it finds every
    line of any fingerprint made of some of these lines, in any order and
    with any repetitions. *)
Theorem all_found_subset (body : string) (l1 l2 : list string) :
  incl l1 l2 ->
  result (all_found body l2) = Ok true ->
  result (all_found body l1) = Ok true.
Proof.
  intros Hincl H2. apply all_found_true_iff in H2. apply all_found_true_iff.
  rewrite Forall_forall in *. auto.
Qed.

Lemma all_found_subset_witness :
  result (all_found "x secret-token-B y secret-token-A z"
            ["secret-token-B"; "secret-token-B"]) = Ok true.
Proof.
  refine (all_found_subset "x secret-token-B y secret-token-A z"
            ["secret-token-B"; "secret-token-B"]
            ["secret-token-A"; "secret-token-B"] _ eq_refl).
  intros x [<- | [<- | []]]; right; left; reflexivity.
Defined.

(** ** getFileHead *)

(** X7: getFileHead returns an error exactly when os.Open does, and then
    that error: a failing read and a line that outgrows the buffer end the
    reading but never surface. *)
Theorem getFileHead_error_iff (W : World) (path : string) (e : error) :
  result (getFileHead W path) = Err e <-> os_Open W path = Err e.
Proof.
  destruct (os_Open W path) as [fp|e0] eqn:Hopen.
  - rewrite (getFileHead_spec W path fp Hopen). cbn. split; discriminate.
  - rewrite (getFileHead_open_fails W path e0 Hopen). cbn.
    split; intros [= ->]; reflexivity.
Qed.

Lemma len_dropCR (l : string) : len (dropCR l) <= len l.
Proof.
  destruct (dropCR_prefix l) as [t Ht]. unfold len. rewrite Ht at 2.
  assert (forall a b, String.length (a +++ b) =
                      (String.length a + String.length b)%nat) as Hlen
      by (induction a as [|x a IH]; intros b; cbn; [reflexivity | now rewrite IH]).
  rewrite Hlen. lia.
Qed.

(** X8: every line of a fingerprint is shorter than MaxScanTokenSize
    (65536 bytes), whatever the file holds. *)
Theorem getFileHead_lines_bounded (W : World) (path : string) (lines : list string) :
  result (getFileHead W path) = Ok lines ->
  Forall (fun l => len l < MaxScanTokenSize) lines.
Proof.
  destruct (os_Open W path) as [fp|e0] eqn:Hopen.
  - rewrite (getFileHead_spec W path fp Hopen). cbn [result snd]. intros H.
    assert (lines = head_lines 11 MaxScanTokenSize (text_lines (data fp)))
      as -> by congruence.
    clear H. apply Forall_forall. intros x Hx.
    destruct (head_lines_from _ _ _ x Hx) as [l [_ [-> Hl]]].
    pose proof (len_dropCR l). lia.
  - rewrite (getFileHead_open_fails W path e0 Hopen). cbn. discriminate.
Qed.

Lemma getFileHead_lines_bounded_witness :
  Forall (fun l => len l < MaxScanTokenSize) ["secret-token-A"; "secret-token-B"].
Proof.
  exact (getFileHead_lines_bounded world_A "notes.txt"
           ["secret-token-A"; "secret-token-B"] eq_refl).
Defined.

Lemma Split_line (l rest : string) :
  has_byte NL l = false ->
  Split (l +++ String NL rest) NL = l :: Split rest NL.
Proof.
  induction l as [|a l IH]; intros H; cbn [String.append Split].
  - now rewrite Ascii.eqb_refl.
  - cbn [has_byte] in H. apply orb_false_iff in H as [Ha Hl].
    rewrite Ha, (IH Hl). reflexivity.
Qed.

Lemma text_lines_unlines (ls : list string) :
  Forall (fun l => has_byte NL l = false) ls ->
  text_lines (unlines ls) = ls.
Proof.
  induction 1 as [|l ls Hl _ IH]; [reflexivity|].
  unfold text_lines. cbn [unlines]. unfold nl. cbn [String.append].
  rewrite (Split_line l (unlines ls) Hl).
  rewrite strip_last_cons by apply Split_nonempty.
  f_equal. exact IH.
Qed.

Lemma dropCR_without_CR (l : string) : has_byte CR l = false -> dropCR l = l.
Proof.
  induction l as [|a l IH]; [reflexivity|].
  cbn [has_byte]. intros H. apply orb_false_iff in H as [Ha Hl].
  destruct l as [|b l].
  - cbn [dropCR]. now rewrite Ha.
  - change (dropCR (String a (String b l)))
      with (String a (dropCR (String b l))).
    now rewrite (IH Hl).
Qed.

(** X9: a file written as lines, each ended by a newline, none holding a
    newline or a carriage return and none of 65536 bytes or more, reads
    back as its first eleven lines, whether its reading ends with io.EOF or
    with a read error. *)
Theorem getFileHead_of_unlines
        (W : World) (path : string) (ls : list string) (e : option error) :
  os_Open W path = Ok (mkFile (unlines ls) e) ->
  Forall (fun l => has_byte NL l = false) ls ->
  Forall (fun l => has_byte CR l = false) ls ->
  Forall (fun l => len l < MaxScanTokenSize) ls ->
  result (getFileHead W path) = Ok (firstn 11 ls).
Proof.
  intros Hopen Hnl Hcr Hfit.
  rewrite (getFileHead_spec W path _ Hopen). cbn [result snd data].
  rewrite (text_lines_unlines ls Hnl).
  rewrite head_lines_fit.
  - f_equal. f_equal. clear -Hcr.
    induction Hcr as [|l ls Hl _ IH]; [reflexivity|].
    cbn [map]. now rewrite (dropCR_without_CR l Hl), IH.
  - clear -Hfit. generalize 11%nat as n. induction Hfit as [|l ls Hl _ IH];
      intros [|n]; cbn [firstn]; constructor; auto.
Qed.

Lemma getFileHead_of_unlines_witness :
  result (getFileHead
            (table_world []
               [("f", Ok (mkFile (unlines ["a"; ""; "b"]) (Some (ReadError "f"))))])
            "f") = Ok (firstn 11 ["a"; ""; "b"]).
Proof.
  refine (getFileHead_of_unlines
            (table_world []
               [("f", Ok (mkFile (unlines ["a"; ""; "b"]) (Some (ReadError "f"))))])
            "f" ["a"; ""; "b"] (Some (ReadError "f")) _ _ _ _).
  - reflexivity.
  - repeat constructor.
  - repeat constructor.
  - repeat constructor.
Defined.

(** ** Run *)

Lemma nonempty_piece_wanted (body l : string) :
  In l (wanted skip_line (Split body NL)) <-> In l (Split body NL) /\ l <> "".
Proof.
  rewrite wanted_skip_line, filter_In, negb_true_iff, String.eqb_neq. tauto.
Qed.

(** X10: the exit of a run that comes to the return of eg.Wait().  Run
    returns ExitCodeOK exactly when request returned nil for every
    non-empty line of the input, whatever the order in which the workers
    ran; otherwise it ends in logrus.Fatal, with an error that request
    returned for one of these lines. *)
Theorem Run_exit_code (W : World) (cfg : Config) (body : string) (o : Outcome) :
  version cfg = false ->
  0 <= concurrency cfg ->
  Run W cfg (Ok body) o ->
  (o = Exit ExitCodeOK <->
   forall l, In l (Split body NL) -> l <> "" -> probe_of W cfg l = Ok tt) /\
  (o = Exit ExitCodeOK \/
   exists e l, o = Fatal e /\ In l (Split body NL) /\ l <> "" /\
               probe_of W cfg l = Err e).
Proof.
  intros Hv Hc Hrun.
  inversion Hrun as [Hv' | e0 Hv' He | b Hv' Hb Hneg | b s Hv' Hb Hc' Hsteps Hfin];
    subst; try congruence; try lia.
  injection Hb as <-.
  destruct (finished_run _ _ _ _ _ Hsteps Hfin) as [_ [Hfail Herr]].
  unfold after_wait. destruct (eg_err s) as [e|] eqn:He.
  - destruct (Herr e eq_refl) as [l [Hl Hp]].
    apply nonempty_piece_wanted in Hl as [Hin Hne]. split.
    + split; [discriminate|]. intros Hall.
      rewrite (Hall l Hin Hne) in Hp. discriminate.
    + right. exists e, l. auto.
  - split; [|now left]. split; [|reflexivity]. intros _ l Hin Hne.
    destruct (probe_of W cfg l) as [[]|e] eqn:Hp; [reflexivity|].
    exfalso. apply (Hfail l); [|now rewrite Hp|reflexivity].
    apply nonempty_piece_wanted. auto.
Qed.

Lemma Run_exit_code_witness :
  exists o,
    Run world_A (demo_cfg 5) (Ok ("notes.txt" +++ nl)) o /\
    (o = Exit ExitCodeOK <->
     forall l, In l (Split ("notes.txt" +++ nl) NL) -> l <> "" ->
               probe_of world_A (demo_cfg 5) l = Ok tt).
Proof.
  destruct (Run_total world_A (demo_cfg 5) ("notes.txt" +++ nl) eq_refl)
    as [o Ho]; [cbn; lia|].
  exists o. split; [exact Ho|].
  refine (proj1 (Run_exit_code world_A (demo_cfg 5) ("notes.txt" +++ nl) o
                   eq_refl _ Ho)).
  cbn. lia.
Defined.

(** X11: with a concurrency of 0 the channel has no buffer and nobody
    receives, so the first send blocks for ever: on an input with a
    non-empty line no probe ever starts and Run never comes to an end. *)
Theorem Run_zero_concurrency_blocks (W : World) (cfg : Config) (body l : string) :
  version cfg = false ->
  concurrency cfg = 0 ->
  In l (Split body NL) ->
  l <> "" ->
  (forall o, ~ Run W cfg (Ok body) o) /\
  (forall s,
      steps (concurrency cfg) skip_line (probe_of W cfg) (init (Split body NL)) s ->
      started s = [] /\ ~ finished s).
Proof.
  intros Hv Hc Hin Hne.
  assert (forall s,
             steps (concurrency cfg) skip_line (probe_of W cfg)
                   (init (Split body NL)) s ->
             started s = [] /\ ~ finished s) as Hblocked.
  { intros s Hsteps.
    assert (concurrency cfg <= 0) as Hle by lia.
    destruct (zero_concurrency_starts_nothing _ _ _ _ s Hle Hsteps) as [Hst _].
    split; [exact Hst|]. intros Hfin.
    destruct (finished_run _ _ _ _ _ Hsteps Hfin) as [Hw _].
    assert (In l (wanted skip_line (Split body NL))) as Hl
        by (apply nonempty_piece_wanted; auto).
    rewrite <- Hw, Hst in Hl. destruct Hl. }
  split; [|exact Hblocked].
  intros o Hrun.
  inversion Hrun as [Hv' | e0 Hv' He | b Hv' Hb Hneg | b s Hv' Hb Hc' Hsteps Hfin];
    subst; try congruence; try lia.
  injection Hb as <-. destruct (Hblocked s Hsteps) as [_ Hnot]. now apply Hnot.
Qed.

Lemma Run_zero_concurrency_blocks_witness :
  (forall o, ~ Run world_A (demo_cfg 0) (Ok "notes.txt") o) /\
  (forall s,
      steps (concurrency (demo_cfg 0)) skip_line (probe_of world_A (demo_cfg 0))
            (init (Split "notes.txt" NL)) s ->
      started s = [] /\ ~ finished s).
Proof.
  refine (Run_zero_concurrency_blocks world_A (demo_cfg 0) "notes.txt" "notes.txt"
            eq_refl eq_refl _ _).
  - left. reflexivity.
  - discriminate.
Defined.

Lemma step_or_finished (cap : Z) (skip : string -> bool)
      (probe : string -> Result unit) (s : RunState) :
  1 <= cap ->
  token_inv cap s ->
  finished s \/ exists s', step cap skip probe s s'.
Proof.
  intros Hcap [Heq _]. destruct s as [ls sd n ts e st].
  unfold in_flight, sending_count in Heq. cbn [chan_len tasks sending] in Heq.
  destruct ts as [|t ts].
  - destruct sd as [l|].
    + right. eexists. apply step_go.
    + destruct ls as [|l ls]; [left; repeat split|]. right.
      destruct (skip l) eqn:Hskip.
      * eexists. apply step_continue. exact Hskip.
      * eexists. apply step_send; [exact Hskip | cbn in Heq; lia].
  - right. destruct t as [l | l r | l r].
    + eexists. apply (step_request cap skip probe l ls sd n [] ts e st).
    + eexists. apply (step_release cap skip probe l r ls sd n [] ts e st).
      cbn [filter holds_token length] in Heq. destruct sd; lia.
    + eexists. apply (step_report cap skip probe l r ls sd n [] ts e st).
Qed.

(** X12: with a concurrency of at least 1 the loop cannot get stuck: every
    state a run reaches either is the return of eg.Wait() or has a next
    step, so no schedule of the workers leads to a deadlock.  This holds
    for the loop of either revision. *)
Theorem Run_never_stuck (cap : Z) (skip : string -> bool)
        (probe : string -> Result unit) (lines : list string) (s : RunState) :
  1 <= cap ->
  steps cap skip probe (init lines) s ->
  finished s \/ exists s', step cap skip probe s s'.
Proof.
  intros Hcap Hsteps. apply step_or_finished; [exact Hcap|].
  apply (token_inv_steps cap skip probe lines s); [lia | exact Hsteps].
Qed.

Lemma Run_never_stuck_witness :
  finished (init ["notes.txt"]) \/
  exists s', step 1 skip_line (probe_of world_A (demo_cfg 1))
                  (init ["notes.txt"]) s'.
Proof.
  refine (Run_never_stuck 1 skip_line (probe_of world_A (demo_cfg 1))
            ["notes.txt"] (init ["notes.txt"]) _ _).
  - lia.
  - apply steps_refl.
Defined.

Lemma step_work (cap : Z) (skip : string -> bool)
      (probe : string -> Result unit) (s s' : RunState) :
  step cap skip probe s s' -> (S (work s') <= work s)%nat.
Proof.
  intros Hstep; destruct Hstep; unfold work;
    cbn [pending sending tasks length];
    rewrite ?map_app, ?list_sum_app; cbn [map task_work];
    unfold list_sum; cbn [fold_right]; lia.
Qed.

(** X13: every run is short: a state reached from the start in [n] steps
    has at most [5 * len(lines) - n] steps left, so no run of the loop, of
    either revision, takes more than five steps per input line (send,
    eg.Go, request, the deferred receive, the report). *)
Theorem Run_takes_at_most_five_steps_per_line
        (cap : Z) (skip : string -> bool) (probe : string -> Result unit)
        (lines : list string) (n : nat) (s : RunState) :
  steps_in cap skip probe n (init lines) s ->
  (n + work s <= 5 * length lines)%nat.
Proof.
  intros H. remember (init lines) as s0 eqn:E.
  induction H as [|n s1 s2 s3 _ IH Hstep]; subst.
  - unfold work. cbn. lia.
  - specialize (IH eq_refl). apply step_work in Hstep. lia.
Qed.

Lemma Run_takes_at_most_five_steps_per_line_witness :
  (1 + work (mkRunState [] (Some "notes.txt") 1 [] None []) <= 5 * 1)%nat.
Proof.
  refine (Run_takes_at_most_five_steps_per_line 1 skip_line
            (probe_of world_A (demo_cfg 1)) ["notes.txt"] 1
            (mkRunState [] (Some "notes.txt") 1 [] None []) _).
  eapply steps_in_S; [apply steps_in_O|].
  apply (step_send 1 skip_line _ "notes.txt" [] 0 [] None []);
    [reflexivity | lia].
Defined.

(** X18: skip-errors at the level of the run.  When the flag is set and
    client.Do fails for every non-empty line of the input (the server
    cannot be reached), every run that comes to the return of eg.Wait()
    returns ExitCodeOK. *)
Theorem Run_skips_transport_errors
        (W : World) (cfg : Config) (body : string) (o : Outcome) :
  version cfg = false ->
  0 <= concurrency cfg ->
  skipErrors cfg = true ->
  (forall l, In l (Split body NL) -> l <> "" ->
     exists u rq e,
       urlJoin W (url cfg) l = Ok u /\
       http_NewRequest W "GET" u = Ok rq /\
       client_Do W (insecure cfg) (timeout cfg)
         (mkRequest (req_method rq) (req_url rq)
                    ("PyamaMultiRequest" +++ "/" +++ Version W)) = Err e) ->
  Run W cfg (Ok body) o ->
  o = Exit ExitCodeOK.
Proof.
  intros Hv Hc Hskip Hdown Hrun.
  inversion Hrun as [Hv' | e0 Hv' He | b Hv' Hb Hneg | b s Hv' Hb Hc' Hsteps Hfin];
    subst; try congruence; try lia.
  injection Hb as <-.
  destruct (finished_run _ _ _ _ _ Hsteps Hfin) as [_ [_ Herr]].
  unfold after_wait. destruct (eg_err s) as [e|]; [|reflexivity].
  destruct (Herr e eq_refl) as [l [Hl Hp]].
  apply nonempty_piece_wanted in Hl as [Hin Hne].
  destruct (Hdown l Hin Hne) as [u [rq [e' [Hjoin [Hnew Hdo]]]]].
  unfold probe_of, request in Hp. rewrite Hjoin in Hp.
  cbn [lift bind app] in Hp. rewrite Hnew in Hp.
  cbn [lift bind app tell] in Hp. rewrite Hdo, Hskip in Hp. discriminate.
Qed.

Lemma Run_skips_transport_errors_witness :
  exists o,
    Run (table_world [] []) (skip_cfg 5) (Ok ("a.txt" +++ nl +++ "b.txt")) o /\
    o = Exit ExitCodeOK.
Proof.
  destruct (Run_total (table_world [] []) (skip_cfg 5)
              ("a.txt" +++ nl +++ "b.txt") eq_refl) as [o Ho]; [cbn; lia|].
  exists o. split; [exact Ho|].
  refine (Run_skips_transport_errors (table_world [] []) (skip_cfg 5)
            ("a.txt" +++ nl +++ "b.txt") o eq_refl _ eq_refl _ Ho).
  - cbn. lia.
  - intros l [<- | [<- | []]] _; do 3 eexists;
      (split; [reflexivity | split; reflexivity]).
Defined.

(** * Further properties of the earlier revision (src/cli.go) *)

(** Where the first newline stands: the first piece of Split and the text
    ReadString returns. *)
Lemma first_newline (s : string) (i : Z) :
  (index_byte_from i s NL = -1 /\ Split s NL = [s]) \/
  (exists k : nat,
      index_byte_from i s NL = i + Z.of_nat k /\
      (k < String.length s)%nat /\
      Split s NL = take k s :: Split (drop (S k) s) NL /\
      take (S k) s = take k s +++ nl).
Proof.
  revert i; induction s as [|a s IH]; intros i.
  - left. split; reflexivity.
  - cbn [index_byte_from Split]. destruct (Ascii.eqb a NL) eqn:Ha.
    + right. exists 0%nat. apply Ascii.eqb_eq in Ha. subst a.
      cbn. repeat split; lia.
    + destruct (IH (i + 1)) as [[Hi Hs] | [k [Hi [Hk [Hs Ht]]]]].
      * left. rewrite Hi, Hs. split; reflexivity.
      * right. exists (S k). rewrite Hi, Hs.
        change (take (S (S k)) (String a s)) with (String a (take (S k) s)).
        rewrite Ht. cbn. repeat split; lia.
Qed.

Lemma removelast_cons {A} (x : A) (l : list A) :
  l <> [] -> removelast (x :: l) = x :: removelast l.
Proof. destruct l; [congruence | reflexivity]. Qed.

(** The loop of cli.go's getFileHead hands back the line it holds and then
    the lines that end in a newline, newline included, up to a count of
    eleven. *)
Lemma Legacy_read_lines_spec (fuel : nat) :
  forall (rd : Legacy.Reader) (line : string) (lines : list string) (cnt : Z),
    0 <= cnt <= 10 ->
    (String.length (Legacy.rd_unread rd) + 2 <= fuel)%nat ->
    Legacy.read_lines fuel rd line false lines cnt =
    Some (lines ++
          firstn (Z.to_nat (11 - cnt))
                 (line :: map (fun l => l +++ nl)
                              (terminated_lines (Legacy.rd_unread rd)))).
Proof.
  induction fuel as [|fuel IH]; intros rd line lines cnt Hcnt Hfuel; [lia|].
  cbn [Legacy.read_lines].
  replace (Z.to_nat (11 - cnt)) with (S (Z.to_nat (10 - cnt))) by lia.
  cbn [firstn].
  destruct (cnt + 1 >? 10) eqn:Hc.
  - replace (Z.to_nat (10 - cnt)) with 0%nat by lia. reflexivity.
  - unfold Legacy.ReadString, IndexByte, terminated_lines.
    destruct (first_newline (Legacy.rd_unread rd) 0)
      as [[Hi Hs] | [k [Hi [Hk [Hs Ht]]]]]; rewrite Hi, Hs.
    + change (0 <=? -1) with false. cbv iota.
      destruct fuel as [|fuel]; [lia|]. cbn [Legacy.read_lines removelast map].
      now destruct (Z.to_nat (10 - cnt)).
    + replace (0 <=? 0 + Z.of_nat k) with true by lia. cbv iota.
      replace (Z.to_nat (0 + Z.of_nat k)) with k by lia.
      rewrite IH; [|lia | cbn [Legacy.rd_unread]; rewrite length_drop; lia].
      cbn [Legacy.rd_unread]. rewrite <- app_assoc. cbn [app].
      rewrite removelast_cons by apply Split_nonempty.
      cbn [map]. rewrite Ht.
      replace (Z.to_nat (11 - (cnt + 1))) with (Z.to_nat (10 - cnt)) by lia.
      reflexivity.
Qed.

(** X14: the head reader of cli.go.  For a file that opens it returns,
    without an error, at most eleven strings: first the empty string of the
    loop's first round, then the first ten lines of the file that end in a
    newline, each with its newline kept; a last line without a newline is
    left out, and the fingerprint is never empty. *)
Theorem Legacy_getFileHead_spec (W : World) (path : string) (fp : File) :
  os_Open W path = Ok fp ->
  Legacy.getFileHead W path =
  ([EvOpen path],
   Ok (EmptyString ::
       firstn 10 (map (fun l => l +++ nl) (terminated_lines (data fp))))).
Proof.
  intros Hopen. unfold Legacy.getFileHead. rewrite Hopen.
  cbn [lift tell bind app].
  rewrite Legacy_read_lines_spec; [reflexivity | lia | cbn; lia].
Qed.

Lemma Legacy_getFileHead_spec_witness :
  Legacy.getFileHead world_A "notes.txt" =
  ([EvOpen "notes.txt"],
   Ok (EmptyString ::
       firstn 10 (map (fun l => l +++ nl)
                      (terminated_lines
                         ("secret-token-A" +++ nl +++ "secret-token-B" +++ nl))))).
Proof.
  exact (Legacy_getFileHead_spec world_A "notes.txt"
           (mkFile ("secret-token-A" +++ nl +++ "secret-token-B" +++ nl) None)
           eq_refl).
Defined.

Lemma Legacy_getFileHead_trace (W : World) (path : string) :
  Legacy.getFileHead W path = ([EvOpen path], result (Legacy.getFileHead W path)).
Proof.
  destruct (os_Open W path) as [fp|e] eqn:Hopen.
  - destruct (Legacy_getFileHead_at_most_11 W path fp Hopen) as [ls [-> _]].
    reflexivity.
  - unfold Legacy.getFileHead. rewrite Hopen. reflexivity.
Qed.

(** X15: the probe of cli.go.  For an answer whose body is read and a file
    that opens, request returns nil, and it reports the file as published
    exactly when the status is 200 and every string of the fingerprint,
    newline included, stands in the body; with status 404 or 403 nothing is
    compared. *)
Theorem Legacy_request_leaked_iff
        (W : World) (url : string) (timeout : Z) (insecure : bool)
        (filePath u : string) (r : Response) (body : string)
        (lines : list string) :
  Legacy_answered W url timeout insecure filePath u r ->
  Body r = Ok body ->
  result (Legacy.getFileHead W filePath) = Ok lines ->
  result (Legacy.request W url timeout insecure filePath) = Ok tt /\
  (Leaked filePath (Legacy.request W url timeout insecure filePath) <->
   StatusCode r = 200 /\ Forall (Contains body) lines) /\
  (StatusCode r <> 200 ->
   compared (trace (Legacy.request W url timeout insecure filePath)) = []).
Proof.
  intros [Hjoin [rq [Hnew Hdo]]] Hbody Hhead.
  unfold Legacy.request. rewrite Hjoin. cbn [lift bind app]. rewrite Hnew.
  cbn [lift bind app tell]. rewrite Hdo. cbn [lift bind app]. rewrite Hbody.
  cbn [lift bind app Infof tell]. unfold StatusOK.
  destruct (StatusCode r =? 200) eqn:Hst; cbn [negb].
  - apply Z.eqb_eq in Hst.
    rewrite (Legacy_getFileHead_trace W filePath), Hhead. cbn [bind app].
    destruct (first_missing body lines) as [Hall | [pre [l [post [E [Hpre Hl]]]]]].
    + rewrite (all_found_all body lines Hall).
      unfold Leaked. cbn [bind app Warnf tell ret trace result fst snd].
      split; [reflexivity|]. split; [|intros; contradiction].
      split; [intros _; auto|]. intros _.
      right. right. right. apply in_app_iff. right. now left.
    + subst lines. rewrite (all_found_stop body pre l post Hpre Hl).
      unfold Leaked. cbn [bind app ret trace result fst snd].
      split; [reflexivity|]. split; [|intros; contradiction].
      split.
      * intros [H | [H | [H | H]]]; try discriminate.
        rewrite app_nil_r in H. now apply published_not_index in H.
      * intros [_ Hall].
        apply Forall_app in Hall as [_ Hall]. inversion Hall; contradiction.
  - apply Z.eqb_neq in Hst. unfold Leaked. cbn [ret trace result fst snd].
    split; [reflexivity|]. split; [|intros _; reflexivity].
    split; [|intros [H _]; contradiction].
    intros [H | [H | []]]; discriminate.
Qed.

Lemma Legacy_request_leaked_iff_witness :
  result (Legacy.request world_A base_url 3 false "notes.txt") = Ok tt /\
  (Leaked "notes.txt" (Legacy.request world_A base_url 3 false "notes.txt") <->
   200 = 200 /\
   Forall (Contains "x secret-token-B y secret-token-A z")
          [""; "secret-token-A" +++ nl; "secret-token-B" +++ nl]) /\
  (200 <> 200 ->
   compared (trace (Legacy.request world_A base_url 3 false "notes.txt")) = []).
Proof.
  refine (Legacy_request_leaked_iff world_A base_url 3 false "notes.txt"
            "https://example.com/site/notes.txt"
            (mkResponse "200 OK" 200 (Ok "x secret-token-B y secret-token-A z"))
            "x secret-token-B y secret-token-A z"
            [""; "secret-token-A" +++ nl; "secret-token-B" +++ nl] _ _ _).
  - split; [reflexivity | eexists; split; reflexivity].
  - reflexivity.
  - reflexivity.
Defined.

Lemma Legacy_probes_every_line_witness :
  exists s,
    steps 5 Legacy.skip_line (Legacy.probe_of world_A (demo_cfg 5))
          (init (Split ("notes.txt" +++ nl) NL)) s /\
    finished s /\
    started s = ["notes.txt"; ""].
Proof.
  destruct (run_to_completion 5 Legacy.skip_line
              (Legacy.probe_of world_A (demo_cfg 5))
              (Split ("notes.txt" +++ nl) NL) ltac:(lia) None [])
    as [s [Hs Hf]].
  exists s. split; [exact Hs|]. split; [exact Hf|].
  exact (Legacy_probes_every_line world_A (demo_cfg 5) ("notes.txt" +++ nl) s
           Hs Hf).
Defined.

Lemma Legacy_token_bound_witness :
  in_flight (mkRunState [""] None 1 [Requesting "notes.txt"] None
                        ["notes.txt"]) <= 1.
Proof.
  refine (Legacy_token_bound world_A (demo_cfg 1) ("notes.txt" +++ nl)
            (mkRunState [""] None 1 [Requesting "notes.txt"] None ["notes.txt"])
            _ _).
  - cbn. lia.
  - eapply steps_more.
    + eapply steps_more; [apply steps_refl|].
      apply (step_send 1 Legacy.skip_line _ "notes.txt" [""] 0 [] None []);
        [reflexivity | lia].
    + apply (step_go 1 Legacy.skip_line _ "notes.txt" [""] (0 + 1) [] None []).
Defined.
